(** * Deck status updater (src/js/script.ts)

    A shallow embedding of [fetchDeckData]. The page is a finite map from
    element ids to element states; a handle is the id of an element of that
    map. The network, and whatever else runs on the page while the function
    is suspended at an [await], form the environment. The function is a
    computation in a state-and-exception monad that also records, in order,
    the effects it performs (writes to elements, the request, console
    output).

    Taken for granted: the promises of [fetch] and [json()] settle; other
    code on the page changes the state of elements but does not run between
    two synchronous steps of the function.

    An entry of the page holds, for one element, its class list, its
    disabled flag, its display style and the text last written to it. What
    a write does to other elements of a nested document (children removed,
    the text of ancestors) is not in the flat page; the document tree at the
    end of the definitions gives the writes that reading. *)

From stdpp Require Import base option list strings pretty gmap fin_maps.

Open Scope string_scope.
Open Scope list_scope.

#[local] Set Warnings "-register-all".

(** ** JavaScript values *)

(** A Number. [NumInt z] is an integer-valued Number in the safe range
    (|z| < 2^53), for which [Number.prototype.toString] prints the decimal
    digits of [z]. Every other Number (fractions, NaN, the infinities, large
    magnitudes) is identified by its canonical rendering, the string that
    [Number.prototype.toString] returns for it. *)
Inductive JsNumber : Type :=
  | NumInt (z : Z)
  | NumOther (rendering : string).

(** The values the function can meet: what [JSON.parse] produces, [undefined],
    and instances of [Error] (with their [name] and [message]). Objects carry
    their own data properties in order; functions, symbols, accessors and
    proxies are left out. *)
Inductive JsValue : Type :=
  | VUndefined
  | VNull
  | VBool (b : bool)
  | VNumber (n : JsNumber)
  | VString (s : string)
  | VArray (elems : list JsValue)
  | VObject (props : list (string * JsValue))
  | VError (name message : string).

(** Result of evaluating something that may throw. *)
Inductive Completion (A : Type) : Type :=
  | Normal (a : A)
  | Thrown (e : JsValue).
Arguments Normal {A} a.
Arguments Thrown {A} e.

Definition TypeError (msg : string) : JsValue := VError "TypeError" msg.

(** [new Error(msg)] *)
Definition new_Error (msg : string) : JsValue := VError "Error" msg.

(** [r.toString()] on a Number, radix 10. *)
Definition number_toString (n : JsNumber) : string :=
  match n with
  | NumInt z => pretty z
  | NumOther rendering => rendering
  end.

(** [typeof v] *)
Definition typeof (v : JsValue) : string :=
  match v with
  | VUndefined => "undefined"
  | VNull => "object"
  | VBool _ => "boolean"
  | VNumber _ => "number"
  | VString _ => "string"
  | VArray _ | VObject _ | VError _ _ => "object"
  end.

(** ToBoolean: what [if (v)], [!v], [v && ...] and [v ? a : b] test. *)
Definition truthy (v : JsValue) : bool :=
  match v with
  | VUndefined | VNull => false
  | VBool b => b
  | VNumber (NumInt z) => negb (z =? 0)%Z
  | VNumber (NumOther r) => negb (String.eqb r "NaN")
  | VString s => negb (String.eqb s "")
  | VArray _ | VObject _ | VError _ _ => true
  end.

(** [error instanceof Error] *)
Definition instanceof_Error (v : JsValue) : bool :=
  match v with
  | VError _ _ => true
  | _ => false
  end.

(** Own data property [k] of an object literal or parsed JSON object; with a
    repeated key the last entry wins. *)
Fixpoint own_property (k : string) (props : list (string * JsValue)) : option JsValue :=
  match props with
  | [] => None
  | (k', v) :: rest =>
      match own_property k rest with
      | Some v' => Some v'
      | None => if String.eqb k k' then Some v else None
      end
  end.

(** [v.k] for the property names this program reads ([remaining], [shuffled],
    [message]). None of them is an index or [length], and of the built-in
    prototypes only [Error.prototype] defines one of them ([message]). Reading
    a property of [null] or [undefined] throws. *)
Definition get_property (v : JsValue) (k : string) : Completion JsValue :=
  match v with
  | VUndefined =>
      Thrown (TypeError ("Cannot read properties of undefined (reading '" +:+ k +:+ "')"))
  | VNull =>
      Thrown (TypeError ("Cannot read properties of null (reading '" +:+ k +:+ "')"))
  | VObject props => Normal (default VUndefined (own_property k props))
  | VError _ message =>
      Normal (if String.eqb k "message" then VString message else VUndefined)
  | VBool _ | VNumber _ | VString _ | VArray _ => Normal VUndefined
  end.

(** ['k' in v] for an object [v], same property names as [get_property]. The
    operator throws when [v] is not an object. *)
Definition has_property (k : string) (v : JsValue) : Completion bool :=
  match v with
  | VObject props => Normal (bool_decide (is_Some (own_property k props)))
  | VError _ _ => Normal (String.eqb k "message")
  | VArray _ => Normal false
  | _ => Thrown (TypeError ("Cannot use 'in' operator to search for '" +:+ k +:+ "'"))
  end.

(** [Array.prototype.join] with the default separator, given the strings of
    the elements. *)
Fixpoint join_comma (parts : list string) : string :=
  match parts with
  | [] => ""
  | [p] => p
  | p :: rest => p +:+ "," +:+ join_comma rest
  end.

(** [String(v)], the ToString conversion that template literals apply too.
    A plain object prints as [[object Object]] through
    [Object.prototype.toString]; an own property named [toString] shadows
    that method, and as no value here is callable the conversion then falls
    through [valueOf] and throws. An array joins the strings of its elements,
    [null] and [undefined] counting as empty. *)
Fixpoint to_String (v : JsValue) : Completion string :=
  match v with
  | VUndefined => Normal "undefined"
  | VNull => Normal "null"
  | VBool b => Normal (if b then "true" else "false")
  | VNumber n => Normal (number_toString n)
  | VString s => Normal s
  | VArray elems =>
      let fix go (l : list JsValue) : Completion (list string) :=
        match l with
        | [] => Normal []
        | x :: rest =>
            match (match x with
                   | VUndefined | VNull => Normal ""
                   | _ => to_String x
                   end) with
            | Thrown e => Thrown e
            | Normal s =>
                match go rest with
                | Thrown e => Thrown e
                | Normal ss => Normal (s :: ss)
                end
            end
        end in
      match go elems with
      | Thrown e => Thrown e
      | Normal parts => Normal (join_comma parts)
      end
  | VObject props =>
      match own_property "toString" props with
      | Some _ => Thrown (TypeError "Cannot convert object to primitive value")
      | None => Normal "[object Object]"
      end
  | VError name message =>
      Normal (if String.eqb name "" then message
              else if String.eqb message "" then name
              else name +:+ ": " +:+ message)
  end.

(** [v.toString()]: the method is looked up on [v], so [null] and [undefined]
    throw, and so does an object whose own [toString] property is not
    callable; otherwise the built-in method prints what [String(v)] prints. *)
Definition call_toString (v : JsValue) : Completion string :=
  match v with
  | VUndefined =>
      Thrown (TypeError "Cannot read properties of undefined (reading 'toString')")
  | VNull =>
      Thrown (TypeError "Cannot read properties of null (reading 'toString')")
  | VObject props =>
      match own_property "toString" props with
      | Some _ => Thrown (TypeError "data.remaining.toString is not a function")
      | None => Normal "[object Object]"
      end
  | _ => to_String v
  end.

(** ** The page *)

(** The state of an element that the function writes: its own attributes,
    and as [textContent] the text last written to it. *)
Record Element : Type := mkElement {
  textContent : string;
  classList : list string;
  disabled : bool;
  style_display : string
}.

Inductive DomWrite : Type :=
  | ClassListAdd (token : string)
  | ClassListRemove (token : string)
  | SetDisabled (b : bool)
  | SetTextContent (s : string)
  | SetStyleDisplay (s : string).

(** [classList] is an ordered set of tokens: adding a token that is there
    changes nothing, removing takes every occurrence out. *)
Definition apply_write (op : DomWrite) (el : Element) : Element :=
  match op with
  | ClassListAdd token =>
      mkElement (textContent el)
        (if bool_decide (token ∈ classList el) then classList el
         else classList el ++ [token])
        (disabled el) (style_display el)
  | ClassListRemove token =>
      mkElement (textContent el)
        (filter (λ t, t ≠ token) (classList el))
        (disabled el) (style_display el)
  | SetDisabled b =>
      mkElement (textContent el) (classList el) b (style_display el)
  | SetTextContent s =>
      mkElement s (classList el) (disabled el) (style_display el)
  | SetStyleDisplay s =>
      mkElement (textContent el) (classList el) (disabled el) s
  end.

(** ** The environment *)

Inductive Settled (A : Type) : Type :=
  | Fulfilled (a : A)
  | Rejected (reason : JsValue).
Arguments Fulfilled {A} a.
Arguments Rejected {A} reason.

(** What the function uses of a [Response]: [ok], [status] (an unsigned
    short) and what the promise of [json()] settles to. *)
Record Response : Type := mkResponse {
  ok : bool;
  status : Z;
  json : Settled JsValue
}.

Record Request : Type := mkRequest {
  method : string;
  url : string
}.

(** The network answers a request; [page_activity n id] is what other code
    does to element [id] while the function is suspended at its [n]-th
    [await]. Elements stay reachable through the handles the function holds. *)
Record Env : Type := mkEnv {
  network : Request → Settled Response;
  page_activity : nat → string → Element → Element
}.

(** Nothing else touches the page. *)
Definition quiet (net : Request → Settled Response) : Env :=
  mkEnv net (λ _ _ el, el).

(** ** Effects and the monad *)

(** What the function does to the outside, in the order it does it. *)
Inductive Event : Type :=
  | EvDom (id : string) (op : DomWrite)
  | EvFetch (req : Request)
  | EvConsoleError (args : list JsValue)
  | EvConsoleLog (args : list JsValue).

Record World : Type := mkWorld {
  dom : gmap string Element;
  trace : list Event
}.

Definition M (A : Type) : Type := World → Completion A * World.

#[global] Instance M_ret : MRet M := λ A a w, (Normal a, w).

#[global] Instance M_bind : MBind M := λ A B k m w,
  match m w with
  | (Normal a, w') => k a w'
  | (Thrown e, w') => (Thrown e, w')
  end.

Definition throw {A} (e : JsValue) : M A := λ w, (Thrown e, w).

Definition eval {A} (c : Completion A) : M A := λ w, (c, w).

Definition emit (ev : Event) : M unit := λ w,
  (Normal (), mkWorld (dom w) (trace w ++ [ev])).

(** [try { body } catch (e) { handler e }] *)
Definition try_catch {A} (body : M A) (handler : JsValue → M A) : M A := λ w,
  match body w with
  | (Thrown e, w') => handler e w'
  | (Normal a, w') => (Normal a, w')
  end.

(** [m] followed by a [finally] clause: the clause runs however [m] ends,
    and the completion of [m] stands unless the clause itself throws. *)
Definition with_finally {A} (m : M A) (finalizer : M unit) : M A := λ w,
  let '(c, w1) := m w in
  match finalizer w1 with
  | (Normal _, w2) => (c, w2)
  | (Thrown e, w2) => (Thrown e, w2)
  end.

(** [try { body } catch (e) { handler e } finally { finalizer }] *)
Definition try_catch_finally {A} (body : M A) (handler : JsValue → M A)
    (finalizer : M unit) : M A :=
  with_finally (try_catch body handler) finalizer.

(** [document.getElementById(id)]: a handle on the element, or [null]. *)
Definition getElementById (id : string) : M (option string) := λ w,
  (Normal (match dom w !! id with Some _ => Some id | None => None end), w).

Definition dom_write (handle : string) (op : DomWrite) : M unit := λ w,
  (Normal (),
   mkWorld (alter (apply_write op) handle (dom w)) (trace w ++ [EvDom handle op])).

Definition classList_add (h token : string) : M unit := dom_write h (ClassListAdd token).
Definition classList_remove (h token : string) : M unit := dom_write h (ClassListRemove token).
Definition set_disabled (h : string) (b : bool) : M unit := dom_write h (SetDisabled b).
Definition set_textContent (h s : string) : M unit := dom_write h (SetTextContent s).
Definition set_style_display (h s : string) : M unit := dom_write h (SetStyleDisplay s).

Definition console_error (args : list JsValue) : M unit := emit (EvConsoleError args).
Definition console_log (args : list JsValue) : M unit := emit (EvConsoleLog args).

(** ** The function *)

Definition deck_url : string :=
  "https://www.deckofcardsapi.com/api/deck/new/shuffle/?deck_count=1".

Section Program.
Variable env : Env.

(** [fetch(url)] with no options: a GET request goes out and a promise
    comes back. *)
Definition fetch (u : string) : M (Settled Response) := λ w,
  let req := mkRequest "GET" u in
  (Normal (network env req), mkWorld (dom w) (trace w ++ [EvFetch req])).

(** The page when the function resumes from its [n]-th suspension. *)
Definition resumed (n : nat) (d : gmap string Element) : gmap string Element :=
  map_imap (λ id el, Some (page_activity env n id el)) d.

(** [await p] at the [n]-th suspension point of the function. *)
Definition await {A} (n : nat) (p : Settled A) : M A := λ w,
  (match p with
   | Fulfilled a => Normal a
   | Rejected reason => Thrown reason
   end,
   mkWorld (resumed n (dom w)) (trace w)).

(** Lines 37-62, the body of [try]. *)
Definition try_block (remainingElement shuffleStatusElement : string) : M unit :=
  promise ← fetch deck_url;
  response ← await 0 promise;
  if negb (ok response) then
    throw (VObject
             [("message",
               VString ("HTTP error! status: " +:+ number_toString (NumInt (status response))));
              ("status", VNumber (NumInt (status response)))])
  else
    data ← await 1 (json response);
    remaining ← eval (get_property data "remaining");
    invalid ←
      (if negb (String.eqb (typeof remaining) "number") then mret true
       else shuffled ← eval (get_property data "shuffled");
            mret (negb (String.eqb (typeof shuffled) "boolean")));
    if invalid : bool then throw (new_Error "Invalid API response structure")
    else
      remaining ← eval (get_property data "remaining");
      text ← eval (call_toString remaining);
      set_textContent remainingElement text;;
      shuffled ← eval (get_property data "shuffled");
      set_textContent shuffleStatusElement (if truthy shuffled then "Yes" else "No");;
      console_log [VString "Full API response:"; data].

(** Lines 64-83, the [catch] clause. [errorText] is a value of the
    language; the template literal of line 82 converts it to a string. *)
Definition catch_block (remainingElement shuffleStatusElement errorMessage : string)
    (error : JsValue) : M unit :=
  console_error [VString "Error fetching deck data:"; error];;
  errorText ←
    (if instanceof_Error error then eval (get_property error "message")
     else if String.eqb (typeof error) "string" then mret error
     else
       has_message ←
         (if truthy error then
            if String.eqb (typeof error) "object" then eval (has_property "message" error)
            else mret false
          else mret false);
       if has_message : bool then
         message ← eval (get_property error "message");
         s ← eval (to_String message);
         mret (VString s)
       else mret (VString "An unknown error occurred"));
  set_textContent remainingElement "Error";;
  set_textContent shuffleStatusElement "Error";;
  shown ← eval (to_String errorText);
  set_textContent errorMessage ("Failed to load deck data: " +:+ shown);;
  set_style_display errorMessage "block".

(** Lines 85-90, the [finally] clause. *)
Definition finally_block (deckCard refreshButton : string) : M unit :=
  classList_remove deckCard "loading";;
  set_disabled refreshButton false;;
  set_textContent refreshButton "Get New Deck".

Definition fetchDeckData : M unit :=
  remainingElement ← getElementById "remaining-cards";
  shuffleStatusElement ← getElementById "shuffle-status";
  deckCard ← getElementById "deck-card";
  refreshButton ← getElementById "refresh-btn";
  errorMessage ← getElementById "error-message";
  match remainingElement, shuffleStatusElement, deckCard, refreshButton, errorMessage with
  | Some remainingElement, Some shuffleStatusElement, Some deckCard,
    Some refreshButton, Some errorMessage =>
      classList_add deckCard "loading";;
      set_disabled refreshButton true;;
      set_textContent refreshButton "Loading...";;
      set_style_display errorMessage "none";;
      try_catch_finally
        (try_block remainingElement shuffleStatusElement)
        (catch_block remainingElement shuffleStatusElement errorMessage)
        (finally_block deckCard refreshButton)
  | _, _, _, _, _ =>
      console_error [VString "Required DOM elements not found"]
  end.

End Program.

(** ** Reading a run *)

Definition required_ids : list string :=
  ["remaining-cards"; "shuffle-status"; "deck-card"; "refresh-btn"; "error-message"].

(** All five handles resolve. *)
Definition handles_resolve (d : gmap string Element) : Prop :=
  Forall (λ id, is_Some (d !! id)) required_ids.

Definition get_request : Request := mkRequest "GET" deck_url.

Definition is_fetch (ev : Event) : bool :=
  match ev with
  | EvFetch _ => true
  | _ => false
  end.

Definition is_console_error (ev : Event) : bool :=
  match ev with
  | EvConsoleError _ => true
  | _ => false
  end.

(** The page after the function's own writes [evs], in order. *)
Definition replay_event (d : gmap string Element) (ev : Event) : gmap string Element :=
  match ev with
  | EvDom id op => alter (apply_write op) id d
  | _ => d
  end.

Definition replay (evs : list Event) (d : gmap string Element) : gmap string Element :=
  foldl replay_event d evs.

(** Lines 31-34. *)
Definition loading_writes : list Event :=
  [EvDom "deck-card" (ClassListAdd "loading");
   EvDom "refresh-btn" (SetDisabled true);
   EvDom "refresh-btn" (SetTextContent "Loading...");
   EvDom "error-message" (SetStyleDisplay "none")].

(** Lines 87-89. *)
Definition restoring_writes : list Event :=
  [EvDom "deck-card" (ClassListRemove "loading");
   EvDom "refresh-btn" (SetDisabled false);
   EvDom "refresh-btn" (SetTextContent "Get New Deck")].

(** What the page's own activity has done to element [id] after the first
    [n] suspensions. *)
Fixpoint activity_upto (env : Env) (n : nat) (id : string) (el : Element) : Element :=
  match n with
  | O => el
  | S n' => page_activity env n' id (activity_upto env n' id el)
  end.

(** The value line 42 builds and line 46 throws. *)
Definition api_error (st : Z) : JsValue :=
  VObject [("message", VString ("HTTP error! status: " +:+ pretty st));
           ("status", VNumber (NumInt st))].

(** The world in which the [try] statement starts. *)
Definition enter_loading (w : World) : World :=
  mkWorld (replay loading_writes (dom w)) (trace w ++ loading_writes).

(** What a computation may do: every event it adds satisfies [P], and no
    element leaves the page. *)
Definition confined {A} (P : Event → Prop) (m : M A) : Prop :=
  ∀ w,
    (∃ evs, trace (m w).2 = trace w ++ evs ∧ Forall P evs) ∧
    (∀ id, is_Some (dom w !! id) → is_Some (dom (m w).2 !! id)).

Definition not_fetch (ev : Event) : Prop := is_fetch ev = false.

(** The world when the function resumes from [await fetch(...)]. *)
Definition after_fetch (env : Env) (w : World) : World :=
  mkWorld (resumed env 0 (dom w)) (trace w ++ [EvFetch get_request]).

(** The world when the function resumes from [await response.json()]. *)
Definition after_json (env : Env) (w : World) : World :=
  mkWorld (resumed env 1 (resumed env 0 (dom w))) (trace w ++ [EvFetch get_request]).

(** A non-null object. *)
Definition is_object (v : JsValue) : Prop := typeof v = "object" ∧ v ≠ VNull.

(** The text derived from a caught value, in the order the specification
    gives: an [Error]'s message; else a string; else the stringified
    [message] property of an object that has one; else the fallback. *)
Inductive error_text : JsValue → string → Prop :=
  | text_of_Error name message :
      error_text (VError name message) message
  | text_of_string s :
      error_text (VString s) s
  | text_of_message e message s :
      instanceof_Error e = false → typeof e ≠ "string" →
      is_object e → has_property "message" e = Normal true →
      get_property e "message" = Normal message →
      to_String message = Normal s →
      error_text e s
  | text_unknown e :
      instanceof_Error e = false → typeof e ≠ "string" →
      ¬ (is_object e ∧ has_property "message" e = Normal true) →
      error_text e "An unknown error occurred".

(** The writes of lines 78-83. *)
Definition error_writes (r s b : string) (text : string) : list Event :=
  [EvDom r (SetTextContent "Error");
   EvDom s (SetTextContent "Error");
   EvDom b (SetTextContent ("Failed to load deck data: " +:+ text));
   EvDom b (SetStyleDisplay "block")].

(** The events of lines 38-62 when the response is rendered. *)
Definition render_events (data : JsValue) (n : JsNumber) (b : bool) : list Event :=
  [EvFetch get_request;
   EvDom "remaining-cards" (SetTextContent (number_toString n));
   EvDom "shuffle-status" (SetTextContent (if b then "Yes" else "No"));
   EvConsoleLog [VString "Full API response:"; data]].

(** ** Sample pages, responses and environments *)

Definition sample_page : gmap string Element :=
  list_to_map
    [("remaining-cards", mkElement "--" ["stat"] false "");
     ("shuffle-status", mkElement "--" ["stat"] false "");
     ("deck-card", mkElement "" ["card"] false "");
     ("refresh-btn", mkElement "Get New Deck" ["btn"] false "");
     ("error-message", mkElement "Failed to load deck data: old" [] false "block");
     ("page-title", mkElement "Deck of Cards" [] false "")].

Definition sample_world : World := mkWorld sample_page [].

(** A page without its refresh button. *)
Definition broken_world : World := mkWorld (delete "refresh-btn" sample_page) [].

(** The network answers every request with [resp]; nothing else runs. *)
Definition answering (resp : Response) : Env := quiet (λ _, Fulfilled resp).

(** The network is down; nothing else runs. *)
Definition failing (reason : JsValue) : Env := quiet (λ _, Rejected reason).

Definition sample_deck : JsValue :=
  VObject [("success", VBool true); ("deck_id", VString "3p40paa87x90");
           ("remaining", VNumber (NumInt 52)); ("shuffled", VBool true)].

Definition overloaded : JsValue := VObject [("message", VNumber (NumInt 503))].

Definition three_shuffled : JsValue :=
  VObject [("remaining", VNumber (NumInt 3)); ("shuffled", VBool true)].

Definition none_unshuffled : JsValue :=
  VObject [("remaining", VNumber (NumInt 0)); ("shuffled", VBool false)].

(** [success] is false and [deck_id] is a number. *)
Definition odd_deck_props : list (string * JsValue) :=
  [("success", VBool false); ("deck_id", VNumber (NumInt 7));
   ("remaining", VNumber (NumInt 52)); ("shuffled", VBool false)].

(** [remaining] is a string. *)
Definition mistyped_deck : JsValue :=
  VObject [("success", VBool true); ("deck_id", VString "3p40paa87x90");
           ("remaining", VString "fifty-two"); ("shuffled", VBool true)].

(** [ev] writes to element [id]. *)
Definition writes_to (id : string) (ev : Event) : bool :=
  match ev with
  | EvDom id' _ => String.eqb id id'
  | _ => false
  end.

(** The recorded writes account for the page a computation leaves. *)
Definition tracked {A} (m : M A) : Prop :=
  ∀ w, ∃ evs, trace (m w).2 = trace w ++ evs ∧ dom (m w).2 = replay evs (dom w).

(** ** Further readings of a run *)

Definition is_console (ev : Event) : bool :=
  match ev with
  | EvConsoleError _ | EvConsoleLog _ => true
  | _ => false
  end.

(** [ev], if it is a write, is to one of the five elements. *)
Definition targets_required (ev : Event) : Prop :=
  match ev with
  | EvDom id _ => id ∈ required_ids
  | _ => True
  end.

(** [ev] leaves the deck card and the refresh button alone. *)
Definition spares_controls (ev : Event) : Prop :=
  writes_to "deck-card" ev = false ∧ writes_to "refresh-btn" ev = false.

(** The environment rejects promises with instances of [Error] only, as
    [fetch] and [json()] do in a browser. *)
Definition rejects_with_errors (env : Env) : Prop :=
  (∀ req e, network env req = Rejected e → instanceof_Error e = true) ∧
  (∀ req resp e,
     network env req = Fulfilled resp → json resp = Rejected e →
     instanceof_Error e = true).

(** An object whose [message] cannot be made a string. *)
Definition unprintable : JsValue :=
  VObject [("message", VObject [("toString", VNull)])].

(** [ev] writes to the deck card or to the refresh button. *)
Definition touches_controls (ev : Event) : bool :=
  writes_to "deck-card" ev || writes_to "refresh-btn" ev.

(** What [json()] rejects with when the body is not JSON. *)
Definition not_json : JsValue :=
  VError "SyntaxError" "Unexpected token < in JSON at position 0".

(** ** The document as a tree

    In the document, elements are nested. The function does not read the
    page beyond looking the five ids up, so the events of a run are the same
    on a nested page; what differs is what a write does to the rest of the
    page: setting [textContent] replaces the children of the element by one
    text node, so elements inside it leave the document, and the text of an
    element is the text of its descendants. *)

Inductive Node : Type :=
  | TextNode (data : string)
  | ElementNode (id : string) (classes : list string) (is_disabled : bool)
      (display : string) (children : list Node).

(** The [textContent] getter: the text of the descendants, in order. *)
Fixpoint node_text (n : Node) : string :=
  match n with
  | TextNode data => data
  | ElementNode _ _ _ _ children =>
      (fix texts (l : list Node) : string :=
         match l with
         | [] => ""
         | c :: rest => node_text c +:+ texts rest
         end) children
  end.

(** The element as the flat page holds it. *)
Definition element_of (n : Node) : Element :=
  match n with
  | TextNode data => mkElement data [] false ""
  | ElementNode _ classes is_disabled display _ =>
      mkElement (node_text n) classes is_disabled display
  end.

(** One write on an element node; the [textContent] setter puts a single
    text node in place of the children, or nothing for the empty string. *)
Definition write_node (op : DomWrite) (n : Node) : Node :=
  match n with
  | TextNode data => TextNode data
  | ElementNode id classes is_disabled display children =>
      match op with
      | ClassListAdd token =>
          ElementNode id
            (if bool_decide (token ∈ classes) then classes else classes ++ [token])
            is_disabled display children
      | ClassListRemove token =>
          ElementNode id (filter (λ t, t ≠ token) classes) is_disabled display children
      | SetDisabled b => ElementNode id classes b display children
      | SetTextContent s =>
          ElementNode id classes is_disabled display
            (if String.eqb s "" then [] else [TextNode s])
      | SetStyleDisplay s => ElementNode id classes is_disabled s children
      end
  end.

(** The write [op] on the element of the document whose id is [target]
    (ids are unique in a document). An element that has left the document
    is no longer found: the write goes to the detached element and does not
    show on the page. *)
Fixpoint tree_write (target : string) (op : DomWrite) (n : Node) : Node :=
  match n with
  | TextNode data => TextNode data
  | ElementNode id classes is_disabled display children =>
      if String.eqb id target then write_node op n
      else ElementNode id classes is_disabled display
             (map (tree_write target op) children)
  end.

(** [document.getElementById] on the tree: the first element with that id,
    in document order. *)
Fixpoint find_element (target : string) (n : Node) : option Node :=
  match n with
  | TextNode _ => None
  | ElementNode id _ _ _ children =>
      if String.eqb id target then Some n
      else
        (fix among (l : list Node) : option Node :=
           match l with
           | [] => None
           | c :: rest =>
               match find_element target c with
               | Some found => Some found
               | None => among rest
               end
           end) children
  end.

(** The elements of the document, in document order. *)
Fixpoint elements_of (n : Node) : list Node :=
  match n with
  | TextNode _ => []
  | ElementNode _ _ _ _ children =>
      n :: (fix all (l : list Node) : list Node :=
              match l with
              | [] => []
              | c :: rest => elements_of c ++ all rest
              end) children
  end.

Definition node_id (n : Node) : string :=
  match n with
  | TextNode _ => ""
  | ElementNode id _ _ _ _ => id
  end.

(** The flat page of a document: each element under its id. *)
Definition page_of (root : Node) : gmap string Element :=
  list_to_map (map (λ n, (node_id n, element_of n)) (elements_of root)).

(** The document after the writes among [evs], in order. *)
Definition tree_event (root : Node) (ev : Event) : Node :=
  match ev with
  | EvDom id op => tree_write id op root
  | _ => root
  end.

Definition replay_tree (evs : list Event) (root : Node) : Node :=
  foldl tree_event root evs.

(** A document in which the deck card holds the two stat fields and the
    refresh button holds an icon. *)
Definition nested_document : Node :=
  ElementNode "app" [] false ""
    [ElementNode "deck-card" ["card"] false ""
       [ElementNode "remaining-cards" ["stat"] false "" [TextNode "--"];
        ElementNode "shuffle-status" ["stat"] false "" [TextNode "--"]];
     ElementNode "refresh-btn" ["btn"] false ""
       [ElementNode "refresh-icon" ["icon"] false "" [TextNode "*"];
        TextNode "Get New Deck"];
     ElementNode "error-message" [] false "none" []].

Definition nested_world : World := mkWorld (page_of nested_document) [].

(** The writes a successful run may make: a text of a stat field or of the
    refresh button, the class list of the deck card, the disabled flag of the
    refresh button, and hiding the banner. *)
Definition success_write (ev : Event) : Prop :=
  match ev with
  | EvDom id (SetTextContent _) =>
      id = "remaining-cards" ∨ id = "shuffle-status" ∨ id = "refresh-btn"
  | EvDom id (ClassListAdd _) | EvDom id (ClassListRemove _) => id = "deck-card"
  | EvDom id (SetDisabled _) => id = "refresh-btn"
  | EvDom id (SetStyleDisplay s) => id = "error-message" ∧ s = "none"
  | _ => True
  end.

(** ** Stepping through the function *)

Lemma handles_resolve_lookup d :
  handles_resolve d ↔
  is_Some (d !! "remaining-cards") ∧ is_Some (d !! "shuffle-status") ∧
  is_Some (d !! "deck-card") ∧ is_Some (d !! "refresh-btn") ∧
  is_Some (d !! "error-message").
Proof.
  unfold handles_resolve, required_ids. rewrite !Forall_cons, Forall_nil. tauto.
Qed.

Lemma fetchDeckData_unresolved env w :
  ¬ handles_resolve (dom w) →
  fetchDeckData env w = console_error [VString "Required DOM elements not found"] w.
Proof.
  intros Hmissing. rewrite handles_resolve_lookup in Hmissing.
  unfold fetchDeckData, getElementById, mbind, M_bind. simpl.
  destruct (dom w !! "remaining-cards"); [|done].
  destruct (dom w !! "shuffle-status"); [|done].
  destruct (dom w !! "deck-card"); [|done].
  destruct (dom w !! "refresh-btn"); [|done].
  destruct (dom w !! "error-message"); [|done].
  destruct Hmissing. eauto 10.
Qed.

Lemma fetchDeckData_resolved env w :
  handles_resolve (dom w) →
  fetchDeckData env w =
    try_catch_finally
      (try_block env "remaining-cards" "shuffle-status")
      (catch_block "remaining-cards" "shuffle-status" "error-message")
      (finally_block "deck-card" "refresh-btn")
      (enter_loading w).
Proof.
  rewrite handles_resolve_lookup. intros ([? H1] & [? H2] & [? H3] & [? H4] & [? H5]).
  unfold fetchDeckData, getElementById, mbind, M_bind. simpl.
  rewrite H1, H2, H3, H4, H5. simpl.
  unfold enter_loading, loading_writes. simpl.
  by rewrite <- !(assoc_L (++)).
Qed.

(** ** Pages reached through writes and suspensions *)

Lemma lookup_resumed env n d id :
  resumed env n d !! id = page_activity env n id <$> d !! id.
Proof. unfold resumed. rewrite map_lookup_imap. by destruct (d !! id). Qed.

Lemma resumed_quiet net n d : resumed (quiet net) n d = d.
Proof.
  apply map_eq. intros id. rewrite lookup_resumed. simpl. by destruct (d !! id).
Qed.

(** Normalises a lookup in a page reached through writes and suspensions. *)
Ltac page_lookup :=
  repeat first
    [ rewrite lookup_alter_eq
    | rewrite lookup_alter_ne by done
    | rewrite lookup_resumed
    | rewrite <- option_fmap_compose ].

(** ** Events added and elements kept *)

Section Confined.
Context (P : Event → Prop).

Lemma confined_ret {A} (a : A) : confined P (mret a).
Proof. intros w. split; [exists []; by rewrite app_nil_r | done]. Qed.

Lemma confined_throw {A} e : confined P (@throw A e).
Proof. intros w. split; [exists []; by rewrite app_nil_r | done]. Qed.

Lemma confined_eval {A} (c : Completion A) : confined P (eval c).
Proof. intros w. split; [exists []; by rewrite app_nil_r | done]. Qed.

Lemma confined_emit ev : P ev → confined P (emit ev).
Proof. intros Hev w. split; [exists [ev]; by repeat constructor | done]. Qed.

Lemma confined_dom_write h op : P (EvDom h op) → confined P (dom_write h op).
Proof.
  intros Hev w. split; [exists [EvDom h op]; by repeat constructor |].
  intros id Hid. simpl. by apply lookup_alter_is_Some.
Qed.

Lemma confined_fetch env u : P (EvFetch (mkRequest "GET" u)) → confined P (fetch env u).
Proof. intros Hev w. split; [eexists [_]; by repeat constructor | done]. Qed.

Lemma confined_await {A} env n (p : Settled A) : confined P (await env n p).
Proof.
  intros w. split; [exists []; by rewrite app_nil_r |].
  intros id [el Hel]. simpl. rewrite lookup_resumed, Hel. by eexists.
Qed.

Lemma confined_bind {A B} (m : M A) (k : A → M B) :
  confined P m → (∀ a, confined P (k a)) → confined P (m ≫= k).
Proof.
  intros Hm Hk w. unfold mbind, M_bind.
  destruct (Hm w) as [(evs & Htr & Hevs) Hkeep].
  destruct (m w) as [[a|e] w1]; simpl in *.
  - destruct (Hk a w1) as [(evs' & Htr' & Hevs') Hkeep']. split.
    + exists (evs ++ evs'). rewrite Htr', Htr, (assoc_L (++)).
      split; [done | by apply Forall_app].
    + auto.
  - split; [by exists evs | done].
Qed.

Lemma confined_try_catch {A} (body : M A) handler :
  confined P body → (∀ e, confined P (handler e)) →
  confined P (try_catch body handler).
Proof.
  intros Hb Hh w. unfold try_catch.
  destruct (Hb w) as [(evs & Htr & Hevs) Hkeep].
  destruct (body w) as [[a|e] w1]; simpl in *; [by eauto|].
  destruct (Hh e w1) as [(evs' & Htr' & Hevs') Hkeep']. split; [|auto].
  exists (evs ++ evs'). rewrite Htr', Htr, (assoc_L (++)).
  split; [done | by apply Forall_app].
Qed.

Lemma confined_with_finally {A} (m : M A) finalizer :
  confined P m → confined P finalizer → confined P (with_finally m finalizer).
Proof.
  intros Hm Hf w. unfold with_finally.
  destruct (Hm w) as [(evs & Htr & Hevs) Hkeep].
  destruct (m w) as [c w1]; simpl in *.
  destruct (Hf w1) as [(evs' & Htr' & Hevs') Hkeep'].
  assert ((∃ evs2, trace (finalizer w1).2 = trace w ++ evs2 ∧ Forall P evs2) ∧
          (∀ id, is_Some (dom w !! id) → is_Some (dom (finalizer w1).2 !! id)))
    as Hfinal.
  { split; [|auto]. exists (evs ++ evs'). rewrite Htr', Htr, (assoc_L (++)).
    split; [done | by apply Forall_app]. }
  by destruct (finalizer w1) as [[[]|e] w2].
Qed.
End Confined.

(** However [m] ends, the world left behind is the one [finally] leaves. *)
Lemma with_finally_world {A} (m : M A) finalizer w :
  (with_finally m finalizer w).2 = (finalizer (m w).2).2.
Proof.
  unfold with_finally. destruct (m w) as [c w1]. simpl.
  by destruct (finalizer w1) as [[[]|e] w2].
Qed.

Ltac confined_step :=
  lazymatch goal with
  | |- confined _ (mbind _ _) => apply confined_bind; [|intros ?]
  | |- confined _ (mret _) => apply confined_ret
  | |- confined _ (throw _) => apply confined_throw
  | |- confined _ (eval _) => apply confined_eval
  | |- confined _ (emit _) => apply confined_emit
  | |- confined _ (dom_write _ _) => apply confined_dom_write
  | |- confined _ (fetch _ _) => apply confined_fetch
  | |- confined _ (await _ _ _) => apply confined_await
  | |- confined _ (try_catch _ _) => apply confined_try_catch; [|intros ?]
  | |- confined _ (with_finally _ _) => apply confined_with_finally
  | |- confined _ (if ?b then _ else _) => destruct b
  end.

Ltac solve_confined :=
  unfold try_catch_finally, classList_add, classList_remove, set_disabled,
    set_textContent, set_style_display, console_error, console_log;
  repeat confined_step; try done.

Lemma catch_block_confined P r s b e :
  (∀ ev, is_fetch ev = false → P ev) →
  confined P (catch_block r s b e).
Proof. intros HP. unfold catch_block. solve_confined; by apply HP. Qed.

Lemma finally_block_confined P c b :
  (∀ ev, is_fetch ev = false → P ev) →
  confined P (finally_block c b).
Proof. intros HP. unfold finally_block. solve_confined; by apply HP. Qed.

(** The first effect of the [try] body is the request; no other follows. *)
Lemma try_block_trace env r s w :
  ∃ evs,
    trace (try_block env r s w).2 = trace w ++ EvFetch get_request :: evs ∧
    Forall not_fetch evs.
Proof.
  unfold try_block.
  match goal with
  | |- context [mbind ?k (fetch env deck_url)] =>
      assert (∀ p, confined not_fetch (k p)) as Hk
  end.
  { intros p. solve_confined. }
  unfold mbind at 1, M_bind at 1. simpl.
  match goal with
  | |- context [trace (?m ?w1).2] => destruct (Hk (network env get_request) w1) as [(evs & Htr & Hevs) _]
  end.
  exists evs. simpl in Htr. by rewrite <- (assoc_L (++)) in Htr.
Qed.

Lemma try_block_keeps env r s : confined (λ _, True) (try_block env r s).
Proof. unfold try_block. solve_confined. Qed.

(** ** The [try] body, outcome by outcome *)

Section TryBlock.
Context (env : Env) (r s : string) (w : World).

Lemma try_block_fetch_rejected e :
  network env get_request = Rejected e →
  try_block env r s w = (Thrown e, after_fetch env w).
Proof.
  intros Hnet. unfold try_block, fetch, await, mbind, M_bind. simpl.
  fold get_request. by rewrite Hnet.
Qed.

Lemma try_block_not_ok resp :
  network env get_request = Fulfilled resp → ok resp = false →
  try_block env r s w = (Thrown (api_error (status resp)), after_fetch env w).
Proof.
  intros Hnet Hok. unfold try_block, fetch, await, mbind, M_bind. simpl.
  fold get_request. by rewrite Hnet, Hok.
Qed.

Lemma try_block_json_rejected resp e :
  network env get_request = Fulfilled resp → ok resp = true →
  json resp = Rejected e →
  try_block env r s w = (Thrown e, after_json env w).
Proof.
  intros Hnet Hok Hjson. unfold try_block, fetch, await, mbind, M_bind. simpl.
  fold get_request. by rewrite Hnet, Hok, Hjson.
Qed.

Lemma try_block_unreadable resp data e :
  network env get_request = Fulfilled resp → ok resp = true →
  json resp = Fulfilled data →
  get_property data "remaining" = Thrown e →
  try_block env r s w = (Thrown e, after_json env w).
Proof.
  intros Hnet Hok Hjson Hget.
  unfold try_block, fetch, await, eval, mbind, M_bind. simpl.
  fold get_request. by rewrite Hnet, Hok, Hjson, Hget.
Qed.

Lemma try_block_invalid resp data remaining shuffled :
  network env get_request = Fulfilled resp → ok resp = true →
  json resp = Fulfilled data →
  get_property data "remaining" = Normal remaining →
  get_property data "shuffled" = Normal shuffled →
  typeof remaining ≠ "number" ∨ typeof shuffled ≠ "boolean" →
  try_block env r s w =
    (Thrown (new_Error "Invalid API response structure"), after_json env w).
Proof.
  intros Hnet Hok Hjson Hrem Hshuf Hbad.
  unfold try_block, fetch, await, eval, mbind, M_bind. simpl.
  fold get_request. rewrite Hnet, Hok, Hjson. simpl. rewrite Hrem.
  destruct (String.eqb_spec (typeof remaining) "number") as [Hr|Hr]; simpl; [|done].
  rewrite Hshuf.
  destruct (String.eqb_spec (typeof shuffled) "boolean") as [Hs|Hs]; simpl; [|done].
  by destruct Hbad.
Qed.

Lemma try_block_valid resp data n b :
  network env get_request = Fulfilled resp → ok resp = true →
  json resp = Fulfilled data →
  get_property data "remaining" = Normal (VNumber n) →
  get_property data "shuffled" = Normal (VBool b) →
  try_block env r s w =
    (Normal (),
     mkWorld
       (alter (apply_write (SetTextContent (if b then "Yes" else "No"))) s
          (alter (apply_write (SetTextContent (number_toString n))) r
             (dom (after_json env w))))
       (trace w ++
          [EvFetch get_request;
           EvDom r (SetTextContent (number_toString n));
           EvDom s (SetTextContent (if b then "Yes" else "No"));
           EvConsoleLog [VString "Full API response:"; data]])).
Proof.
  intros Hnet Hok Hjson Hrem Hshuf.
  unfold try_block, fetch, await, eval, set_textContent, dom_write,
    console_log, emit, mbind, M_bind. simpl.
  fold get_request. rewrite Hnet, Hok, Hjson. simpl. rewrite Hrem. simpl.
  rewrite Hshuf. simpl. by rewrite <- !(assoc_L (++)).
Qed.
End TryBlock.

(** ** The [catch] clause *)

Lemma catch_block_run r s b e text w :
  error_text e text →
  catch_block r s b e w =
    (Normal (),
     mkWorld (replay (error_writes r s b text) (dom w))
       (trace w ++
          EvConsoleError [VString "Error fetching deck data:"; e] ::
          error_writes r s b text)).
Proof.
  intros Htext.
  unfold catch_block, set_textContent, set_style_display, dom_write,
    console_error, emit, eval, mbind, M_bind, mret, M_ret.
  destruct Htext as [name message|t|e message t Herr Hstr [Hobj Hnull] Hhas Hget Hto
                    |e Herr Hstr Hnot]; simpl.
  - by rewrite <- !(assoc_L (++)).
  - by rewrite <- !(assoc_L (++)).
  - rewrite Herr. destruct (String.eqb_spec (typeof e) "string"); [done|].
    rewrite Hobj. simpl.
    destruct e; try done; simpl in *; simplify_eq.
    rewrite Hhas, Hto. simpl. by rewrite <- !(assoc_L (++)).
  - rewrite Herr. destruct (String.eqb_spec (typeof e) "string") as [|_]; [done|].
    destruct e as [| |b0|num|t|elems|props|name message];
      try done; simpl in *; try by rewrite <- !(assoc_L (++)).
    + destruct b0; simpl; by rewrite <- !(assoc_L (++)).
    + destruct num as [z|rendering]; simpl;
        destruct (negb _); simpl; by rewrite <- !(assoc_L (++)).
    + case_bool_decide as Hp; simpl; [|by rewrite <- !(assoc_L (++))].
      destruct Hnot. by repeat split.
Qed.

(** Stringifying the [message] property can itself throw; the clause then
    ends before line 78 and nothing is written. *)
Lemma catch_block_throws r s b e message t w :
  instanceof_Error e = false → typeof e ≠ "string" →
  is_object e → has_property "message" e = Normal true →
  get_property e "message" = Normal message →
  to_String message = Thrown t →
  catch_block r s b e w =
    (Thrown t,
     mkWorld (dom w)
       (trace w ++ [EvConsoleError [VString "Error fetching deck data:"; e]])).
Proof.
  intros Herr Hstr [Hobj Hnull] Hhas Hget Hto.
  unfold catch_block, console_error, emit, eval, mbind, M_bind, mret, M_ret. simpl.
  rewrite Herr. destruct (String.eqb_spec (typeof e) "string"); [done|].
  rewrite Hobj. simpl.
  destruct e; try done; simpl in *; simplify_eq. by rewrite Hhas, Hto.
Qed.

(** Every caught value has a text, or is an object whose [message] cannot be
    stringified. *)
Lemma error_text_or_throws e :
  (∃ text, error_text e text) ∨
  (∃ message t,
     instanceof_Error e = false ∧ typeof e ≠ "string" ∧ is_object e ∧
     has_property "message" e = Normal true ∧
     get_property e "message" = Normal message ∧ to_String message = Thrown t).
Proof.
  destruct e as [| |b0|n|t|elems|props|name message];
    try (left; eexists; apply text_unknown; [done|done|]; intros [[? ?] ?]; done).
  - left. eexists. apply text_of_string.
  - destruct (own_property "message" props) as [m|] eqn:Hm.
    + destruct (to_String m) as [t|t] eqn:Hto.
      * left. exists t. eapply text_of_message; try done.
        -- simpl. rewrite Hm. by rewrite bool_decide_eq_true_2.
        -- simpl. by rewrite Hm.
      * right. exists m, t. repeat split; try done.
        -- simpl. rewrite Hm. by rewrite bool_decide_eq_true_2.
        -- simpl. by rewrite Hm.
    + left. eexists. apply text_unknown; [done|done|].
      intros [_ Hhas]. simpl in Hhas. rewrite Hm in Hhas.
      rewrite bool_decide_eq_false_2 in Hhas; [done|]. by intros [? ?].
  - left. eexists. apply text_of_Error.
Qed.

(** The derivation is a function of the caught value. *)
Lemma error_text_functional e t1 t2 : error_text e t1 → error_text e t2 → t1 = t2.
Proof.
  intros H1 H2.
  destruct H1; inversion H2; subst; simpl in *; try done; try congruence;
    exfalso; tauto.
Qed.

(** ** The [finally] clause and whole runs *)

Lemma finally_block_run w :
  finally_block "deck-card" "refresh-btn" w =
    (Normal (),
     mkWorld (replay restoring_writes (dom w)) (trace w ++ restoring_writes)).
Proof.
  unfold finally_block, classList_remove, set_disabled, set_textContent,
    dom_write, mbind, M_bind. simpl. by rewrite <- !(assoc_L (++)).
Qed.

Lemma try_catch_finally_normal {A} (body : M A) handler finalizer w a w1 w2 :
  body w = (Normal a, w1) → finalizer w1 = (Normal (), w2) →
  try_catch_finally body handler finalizer w = (Normal a, w2).
Proof.
  intros Hb Hf. unfold try_catch_finally, with_finally, try_catch.
  by rewrite Hb, Hf.
Qed.

Lemma try_catch_finally_caught {A} (body : M A) handler finalizer w e w1 c w2 w3 :
  body w = (Thrown e, w1) → handler e w1 = (c, w2) →
  finalizer w2 = (Normal (), w3) →
  try_catch_finally body handler finalizer w = (c, w3).
Proof.
  intros Hb Hh Hf. unfold try_catch_finally, with_finally, try_catch.
  by rewrite Hb, Hh, Hf.
Qed.

Lemma fetchDeckData_rendered env w resp data n b :
  handles_resolve (dom w) →
  network env get_request = Fulfilled resp → ok resp = true →
  json resp = Fulfilled data →
  get_property data "remaining" = Normal (VNumber n) →
  get_property data "shuffled" = Normal (VBool b) →
  fetchDeckData env w =
    (Normal (),
     mkWorld
       (replay restoring_writes
          (replay (render_events data n b)
             (resumed env 1 (resumed env 0 (replay loading_writes (dom w))))))
       (trace w ++ loading_writes ++ render_events data n b ++ restoring_writes)).
Proof.
  intros Hres Hnet Hok Hjson Hrem Hshuf.
  rewrite (fetchDeckData_resolved _ _ Hres).
  erewrite try_catch_finally_normal;
    [| by eapply try_block_valid | apply finally_block_run].
  simpl. by rewrite <- !(assoc_L (++)).
Qed.

(** The run when the [try] body throws [e] and [e] has a text. *)
Lemma fetchDeckData_failed env w e w1 text :
  handles_resolve (dom w) →
  try_block env "remaining-cards" "shuffle-status" (enter_loading w) = (Thrown e, w1) →
  error_text e text →
  fetchDeckData env w =
    (Normal (),
     mkWorld
       (replay restoring_writes
          (replay (error_writes "remaining-cards" "shuffle-status" "error-message" text)
             (dom w1)))
       (trace w1 ++
          EvConsoleError [VString "Error fetching deck data:"; e] ::
          error_writes "remaining-cards" "shuffle-status" "error-message" text ++
          restoring_writes)).
Proof.
  intros Hres Htry Htext.
  rewrite (fetchDeckData_resolved _ _ Hres).
  erewrite try_catch_finally_caught;
    [| exact Htry | by apply catch_block_run | apply finally_block_run].
  simpl. by rewrite <- !(assoc_L (++)).
Qed.

(** Whatever happens, the function ends in the world [finally] leaves, and
    no element has gone. *)
Lemma fetchDeckData_ends_in_finally env w :
  handles_resolve (dom w) →
  ∃ w1,
    handles_resolve (dom w1) ∧
    (fetchDeckData env w).2 =
      mkWorld (replay restoring_writes (dom w1)) (trace w1 ++ restoring_writes).
Proof.
  intros Hres. rewrite (fetchDeckData_resolved _ _ Hres).
  unfold try_catch_finally. rewrite with_finally_world, finally_block_run. simpl.
  eexists. split; [|done].
  assert (confined (λ _, True)
            (try_catch (try_block env "remaining-cards" "shuffle-status")
               (catch_block "remaining-cards" "shuffle-status" "error-message")))
    as Hkeep.
  { apply confined_try_catch; [apply try_block_keeps|].
    intros e. by apply catch_block_confined. }
  destruct (Hkeep (enter_loading w)) as [_ Hkeep'].
  unfold handles_resolve in *. eapply Forall_impl; [exact Hres|].
  intros id Hid. apply Hkeep'. simpl.
  unfold replay, loading_writes. simpl.
  by repeat apply lookup_alter_is_Some.
Qed.

Lemma sample_page_resolves : handles_resolve sample_page.
Proof. apply (bool_decide_unpack _). vm_compute. exact I. Defined.

Lemma filter_not_fetch evs : Forall not_fetch evs → filter is_fetch evs = [].
Proof.
  induction 1 as [|ev evs Hev _ IH]; [done|].
  rewrite filter_cons, IH. unfold not_fetch in Hev. by rewrite Hev.
Qed.

(** The page a failed run leaves: lines 78-83, then [finally]. *)
Lemma failed_page d text :
  handles_resolve d →
  let d' :=
    replay restoring_writes
      (replay (error_writes "remaining-cards" "shuffle-status" "error-message" text) d) in
  textContent <$> d' !! "remaining-cards" = Some "Error" ∧
  textContent <$> d' !! "shuffle-status" = Some "Error" ∧
  textContent <$> d' !! "error-message" = Some ("Failed to load deck data: " +:+ text) ∧
  style_display <$> d' !! "error-message" = Some "block".
Proof.
  intros Hres.
  apply handles_resolve_lookup in Hres
    as ([rem Hrem] & [shuf Hshuf] & _ & _ & [banner Hbanner]).
  unfold replay, restoring_writes, error_writes. simpl.
  repeat split; page_lookup; by rewrite ?Hrem, ?Hshuf, ?Hbanner.
Qed.

Lemma try_block_resolves env w e w1 :
  handles_resolve (dom w) →
  try_block env "remaining-cards" "shuffle-status" (enter_loading w) = (Thrown e, w1) →
  handles_resolve (dom w1).
Proof.
  intros Hres Htry.
  destruct (try_block_keeps env "remaining-cards" "shuffle-status" (enter_loading w))
    as [_ Hkeep].
  rewrite Htry in Hkeep. simpl in Hkeep.
  unfold handles_resolve in *. eapply Forall_impl; [exact Hres|].
  intros id Hid. apply Hkeep. unfold replay, loading_writes. simpl.
  by repeat apply lookup_alter_is_Some.
Qed.

Lemma error_text_api_error st :
  error_text (api_error st) ("HTTP error! status: " +:+ pretty st).
Proof.
  eapply text_of_message; [done | done | by split | done | reflexivity | done].
Qed.

(** ** The recorded writes account for the page

    When nothing else runs, the page the function leaves is the page it
    found with the recorded writes applied in order. *)

Lemma replay_app evs1 evs2 d : replay (evs1 ++ evs2) d = replay evs2 (replay evs1 d).
Proof. apply foldl_app. Qed.

Lemma tracked_silent {A} (c : Completion A) : tracked (λ w, (c, w)).
Proof. intros w. exists []. by rewrite app_nil_r. Qed.

Lemma tracked_emit ev :
  (∀ d, replay_event d ev = d) → tracked (emit ev).
Proof. intros Hev w. exists [ev]. split; [done|]. simpl. by rewrite Hev. Qed.

Lemma tracked_dom_write h op : tracked (dom_write h op).
Proof. intros w. by exists [EvDom h op]. Qed.

Lemma tracked_getElementById id : tracked (getElementById id).
Proof. intros w. exists []. by rewrite app_nil_r. Qed.

Lemma tracked_fetch net u : tracked (fetch (quiet net) u).
Proof. intros w. by eexists [_]. Qed.

Lemma tracked_await {A} net n (p : Settled A) : tracked (await (quiet net) n p).
Proof.
  intros w. exists []. simpl. by rewrite app_nil_r, resumed_quiet.
Qed.

Lemma tracked_bind {A B} (m : M A) (k : A → M B) :
  tracked m → (∀ a, tracked (k a)) → tracked (m ≫= k).
Proof.
  intros Hm Hk w. unfold mbind, M_bind.
  destruct (Hm w) as (evs & Htr & Hdom).
  destruct (m w) as [[a|e] w1]; simpl in *; [|by exists evs].
  destruct (Hk a w1) as (evs' & Htr' & Hdom').
  exists (evs ++ evs'). by rewrite Htr', Htr, Hdom', Hdom, replay_app, (assoc_L (++)).
Qed.

Lemma tracked_try_catch {A} (body : M A) handler :
  tracked body → (∀ e, tracked (handler e)) → tracked (try_catch body handler).
Proof.
  intros Hb Hh w. unfold try_catch.
  destruct (Hb w) as (evs & Htr & Hdom).
  destruct (body w) as [[a|e] w1]; simpl in *; [by exists evs|].
  destruct (Hh e w1) as (evs' & Htr' & Hdom').
  exists (evs ++ evs'). by rewrite Htr', Htr, Hdom', Hdom, replay_app, (assoc_L (++)).
Qed.

Lemma tracked_with_finally {A} (m : M A) finalizer :
  tracked m → tracked finalizer → tracked (with_finally m finalizer).
Proof.
  intros Hm Hf w. rewrite with_finally_world.
  destruct (Hm w) as (evs & Htr & Hdom).
  destruct (Hf (m w).2) as (evs' & Htr' & Hdom').
  exists (evs ++ evs'). by rewrite Htr', Htr, Hdom', Hdom, replay_app, (assoc_L (++)).
Qed.

Ltac tracked_step :=
  lazymatch goal with
  | |- tracked (mbind _ _) => apply tracked_bind; [|intros ?]
  | |- tracked (mret _) => apply tracked_silent
  | |- tracked (throw _) => apply tracked_silent
  | |- tracked (eval _) => apply tracked_silent
  | |- tracked (emit _) => apply tracked_emit
  | |- tracked (dom_write _ _) => apply tracked_dom_write
  | |- tracked (getElementById _) => apply tracked_getElementById
  | |- tracked (fetch _ _) => apply tracked_fetch
  | |- tracked (await _ _ _) => apply tracked_await
  | |- tracked (try_catch _ _) => apply tracked_try_catch; [|intros ?]
  | |- tracked (with_finally _ _) => apply tracked_with_finally
  | |- tracked (if ?b then _ else _) => destruct b
  | |- tracked (match ?o with Some _ => _ | None => _ end) => destruct o
  end.

Lemma fetchDeckData_tracked net : tracked (fetchDeckData (quiet net)).
Proof.
  unfold fetchDeckData, try_catch_finally, try_block, catch_block, finally_block,
    classList_add, classList_remove, set_disabled, set_textContent,
    set_style_display, console_error, console_log.
  repeat tracked_step; done.
Qed.

(** ** The properties of the specification *)

(** C1: when the five handles resolve and the response is ok with a body
    whose [remaining] is a number [n] and whose [shuffled] is a boolean [b],
    the remaining field ends up showing the decimal string of [n] and the
    shuffle field "Yes" when [b] is true and "No" when it is false. *)
Theorem fetchDeckData_renders_stats env w resp data n b :
  handles_resolve (dom w) →
  network env get_request = Fulfilled resp → ok resp = true →
  json resp = Fulfilled data →
  get_property data "remaining" = Normal (VNumber n) →
  get_property data "shuffled" = Normal (VBool b) →
  let w' := (fetchDeckData env w).2 in
  textContent <$> dom w' !! "remaining-cards" =
    Some (match n with NumInt z => pretty z | NumOther rendering => rendering end) ∧
  textContent <$> dom w' !! "shuffle-status" = Some (if b then "Yes" else "No").
Proof.
  intros Hres Hnet Hok Hjson Hrem Hshuf. simpl.
  rewrite (fetchDeckData_rendered env w resp data n b) by done. simpl.
  apply handles_resolve_lookup in Hres as ([rem Hr] & [shuf Hs] & _).
  unfold replay, restoring_writes, render_events, loading_writes. simpl.
  split; page_lookup; by rewrite ?Hr, ?Hs.
Qed.

Lemma fetchDeckData_renders_stats_witness :
  let w' := (fetchDeckData (answering (mkResponse true 200 (Fulfilled three_shuffled)))
               sample_world).2 in
  textContent <$> dom w' !! "remaining-cards" = Some "3" ∧
  textContent <$> dom w' !! "shuffle-status" = Some "Yes".
Proof.
  exact (fetchDeckData_renders_stats
           (answering (mkResponse true 200 (Fulfilled three_shuffled))) sample_world
           (mkResponse true 200 (Fulfilled three_shuffled)) three_shuffled
           (NumInt 3) true sample_page_resolves eq_refl eq_refl eq_refl eq_refl eq_refl).
Defined.

Example fetchDeckData_renders_zero_no :
  let w' := (fetchDeckData (answering (mkResponse true 200 (Fulfilled none_unshuffled)))
               sample_world).2 in
  textContent <$> dom w' !! "remaining-cards" = Some "0" ∧
  textContent <$> dom w' !! "shuffle-status" = Some "No".
Proof. by vm_compute. Qed.

(** C2: when the five handles resolve, then however the fetch, the parsing
    and the rendering end, the function leaves the refresh button enabled
    with the label "Get New Deck" and the deck card without the [loading]
    class. *)
Theorem fetchDeckData_always_restores env w :
  handles_resolve (dom w) →
  let w' := (fetchDeckData env w).2 in
  (∃ button, dom w' !! "refresh-btn" = Some button ∧
     disabled button = false ∧ textContent button = "Get New Deck") ∧
  (∃ card, dom w' !! "deck-card" = Some card ∧ "loading" ∉ classList card).
Proof.
  intros Hres. simpl.
  destruct (fetchDeckData_ends_in_finally env w Hres) as (w1 & Hres1 & ->).
  apply handles_resolve_lookup in Hres1 as (_ & _ & [card Hcard] & [button Hbutton] & _).
  unfold replay, restoring_writes. simpl. split.
  - eexists. split; [page_lookup; by rewrite Hbutton|done].
  - eexists. split; [page_lookup; by rewrite Hcard|]. simpl.
    rewrite list_elem_of_filter. tauto.
Qed.

Lemma fetchDeckData_always_restores_witness :
  handles_resolve (dom sample_world) ∧
  let w' := (fetchDeckData (failing (VString "offline")) sample_world).2 in
  (∃ button, dom w' !! "refresh-btn" = Some button ∧
     disabled button = false ∧ textContent button = "Get New Deck") ∧
  (∃ card, dom w' !! "deck-card" = Some card ∧ "loading" ∉ classList card).
Proof.
  split; [exact sample_page_resolves|].
  exact (fetchDeckData_always_restores (failing (VString "offline")) sample_world
           sample_page_resolves).
Defined.

(** C3: when the five handles resolve and the response is not ok, the [try]
    body throws an object whose message is "HTTP error! status: " followed
    by the status code; both stat fields end up showing "Error", and the
    banner is displayed with "Failed to load deck data: " followed by that
    message. *)
Theorem fetchDeckData_http_failure env w resp :
  handles_resolve (dom w) →
  network env get_request = Fulfilled resp → ok resp = false →
  let thrown :=
    VObject [("message", VString ("HTTP error! status: " +:+ pretty (status resp)));
             ("status", VNumber (NumInt (status resp)))] in
  let w' := (fetchDeckData env w).2 in
  (try_block env "remaining-cards" "shuffle-status" (enter_loading w)).1 = Thrown thrown ∧
  EvConsoleError [VString "Error fetching deck data:"; thrown] ∈ trace w' ∧
  textContent <$> dom w' !! "remaining-cards" = Some "Error" ∧
  textContent <$> dom w' !! "shuffle-status" = Some "Error" ∧
  textContent <$> dom w' !! "error-message" =
    Some ("Failed to load deck data: " +:+ "HTTP error! status: " +:+ pretty (status resp)) ∧
  style_display <$> dom w' !! "error-message" = Some "block".
Proof.
  intros Hres Hnet Hok. simpl.
  pose proof (try_block_not_ok env "remaining-cards" "shuffle-status"
                (enter_loading w) resp Hnet Hok) as Htry.
  split; [by rewrite Htry|].
  rewrite (fetchDeckData_failed env w _ _ _ Hres Htry (error_text_api_error _)).
  cbn [fst snd dom trace].
  split; [apply elem_of_app; right; apply list_elem_of_here|].
  apply (failed_page _ ("HTTP error! status: " +:+ pretty (status resp))).
  by apply (try_block_resolves env w _ _ Hres Htry).
Qed.

Lemma fetchDeckData_http_failure_witness :
  let thrown :=
    VObject [("message", VString "HTTP error! status: 429");
             ("status", VNumber (NumInt 429))] in
  let env := answering (mkResponse false 429 (Fulfilled VNull)) in
  let w' := (fetchDeckData env sample_world).2 in
  (try_block env "remaining-cards" "shuffle-status" (enter_loading sample_world)).1 =
    Thrown thrown ∧
  EvConsoleError [VString "Error fetching deck data:"; thrown] ∈ trace w' ∧
  textContent <$> dom w' !! "remaining-cards" = Some "Error" ∧
  textContent <$> dom w' !! "shuffle-status" = Some "Error" ∧
  textContent <$> dom w' !! "error-message" =
    Some "Failed to load deck data: HTTP error! status: 429" ∧
  style_display <$> dom w' !! "error-message" = Some "block".
Proof.
  exact (fetchDeckData_http_failure
           (answering (mkResponse false 429 (Fulfilled VNull))) sample_world
           (mkResponse false 429 (Fulfilled VNull)) sample_page_resolves eq_refl eq_refl).
Defined.




(** A body of [null] has no properties to read: the [try] body throws the
    TypeError of the property access, and that is what the banner shows. *)
Example fetchDeckData_null_body :
  let env := answering (mkResponse true 200 (Fulfilled VNull)) in
  textContent <$> dom (fetchDeckData env sample_world).2 !! "error-message" =
    Some "Failed to load deck data: Cannot read properties of null (reading 'remaining')".
Proof. by vm_compute. Qed.

(** C5: when one of the five handles is missing, the function returns at
    once: the page is as it was, no request has gone out, and the only
    effect is one diagnostic on the console. *)
Theorem fetchDeckData_missing_handle env w id :
  id ∈ required_ids → dom w !! id = None →
  fetchDeckData env w =
    (Normal (),
     mkWorld (dom w)
       (trace w ++ [EvConsoleError [VString "Required DOM elements not found"]])).
Proof.
  intros Hid Hmissing. rewrite fetchDeckData_unresolved; [done|].
  unfold handles_resolve. rewrite Forall_forall. intros Hall.
  destruct (Hall id Hid) as [el Hel]. congruence.
Qed.

Lemma fetchDeckData_missing_handle_witness :
  "refresh-btn" ∈ required_ids ∧ dom broken_world !! "refresh-btn" = None ∧
  fetchDeckData (answering (mkResponse true 200 (Fulfilled sample_deck))) broken_world =
    (Normal (),
     mkWorld (dom broken_world)
       [EvConsoleError [VString "Required DOM elements not found"]]).
Proof.
  assert ("refresh-btn" ∈ required_ids) as Hid.
  { apply (bool_decide_unpack _). vm_compute. exact I. }
  split; [exact Hid|]. split; [reflexivity|].
  exact (fetchDeckData_missing_handle _ broken_world "refresh-btn" Hid eq_refl).
Defined.

(** C6: the value the [try] body throws is turned into a text by the fixed
    precedence (an [Error]'s message, else a string itself, else the
    stringified [message] property of a non-null object, else "An unknown
    error occurred"), and the banner shows that text after the prefix
    "Failed to load deck data: ". *)
Theorem fetchDeckData_banner_text env w e w1 text :
  handles_resolve (dom w) →
  try_block env "remaining-cards" "shuffle-status" (enter_loading w) = (Thrown e, w1) →
  error_text e text →
  let w' := (fetchDeckData env w).2 in
  EvConsoleError [VString "Error fetching deck data:"; e] ∈ trace w' ∧
  textContent <$> dom w' !! "error-message" =
    Some ("Failed to load deck data: " +:+ text).
Proof.
  intros Hres Htry Htext. simpl.
  rewrite (fetchDeckData_failed env w e w1 text Hres Htry Htext). simpl. split.
  - apply elem_of_app. right. apply list_elem_of_here.
  - by apply failed_page, (try_block_resolves env w e w1).
Qed.

Lemma fetchDeckData_banner_text_witness :
  let w' := (fetchDeckData (failing overloaded) sample_world).2 in
  EvConsoleError [VString "Error fetching deck data:"; overloaded] ∈ trace w' ∧
  textContent <$> dom w' !! "error-message" = Some "Failed to load deck data: 503".
Proof.
  apply (fetchDeckData_banner_text (failing overloaded) sample_world overloaded
           (after_fetch (failing overloaded) (enter_loading sample_world)) "503").
  - exact sample_page_resolves.
  - reflexivity.
  - apply (text_of_message overloaded (VNumber (NumInt 503)) "503").
    + reflexivity.
    + discriminate.
    + split; [reflexivity | discriminate].
    + reflexivity.
    + reflexivity.
    + reflexivity.
Defined.

(** C7: when the five handles resolve, the function reaches its [try]
    statement in a world [w1] that does not depend on the environment: it
    has done the four loading writes and nothing else, no request has gone
    out, and in [w1] the deck card has the [loading] class, the refresh
    button is disabled and reads "Loading...", and the error banner is
    hidden. The first effect of the [try] body from [w1] is the request, and
    the page the environment finds at that suspension is the page of [w1]. *)
Theorem fetchDeckData_loading_before_request w :
  handles_resolve (dom w) →
  ∃ w1,
    (∀ env,
       fetchDeckData env w =
         try_catch_finally
           (try_block env "remaining-cards" "shuffle-status")
           (catch_block "remaining-cards" "shuffle-status" "error-message")
           (finally_block "deck-card" "refresh-btn") w1) ∧
    trace w1 = trace w ++ loading_writes ∧
    filter is_fetch loading_writes = [] ∧
    (∀ env, ∃ rest,
       trace (try_block env "remaining-cards" "shuffle-status" w1).2 =
         trace w1 ++ EvFetch get_request :: rest) ∧
    (∀ env e,
       network env get_request = Rejected e →
       try_block env "remaining-cards" "shuffle-status" w1 =
         (Thrown e,
          mkWorld (resumed env 0 (dom w1)) (trace w1 ++ [EvFetch get_request]))) ∧
    (∀ env, ∃ rest,
       trace (fetchDeckData env w).2 =
         trace w ++ loading_writes ++ EvFetch get_request :: rest) ∧
    (∃ card, dom w1 !! "deck-card" = Some card ∧ "loading" ∈ classList card) ∧
    (∃ button, dom w1 !! "refresh-btn" = Some button ∧
       disabled button = true ∧ textContent button = "Loading...") ∧
    (∃ banner, dom w1 !! "error-message" = Some banner ∧ style_display banner = "none").
Proof.
  intros Hres. exists (enter_loading w).
  split; [intros env; by apply fetchDeckData_resolved|].
  split; [done|]. split; [done|].
  split.
  { intros env.
    destruct (try_block_trace env "remaining-cards" "shuffle-status" (enter_loading w))
      as (evs & Htr & _).
    by exists evs. }
  split; [intros env e Hnet; by apply try_block_fetch_rejected|].
  split.
  { intros env. rewrite (fetchDeckData_resolved _ _ Hres).
    unfold try_catch_finally. rewrite with_finally_world, finally_block_run. simpl.
    unfold try_catch.
    destruct (try_block_trace env "remaining-cards" "shuffle-status" (enter_loading w))
      as (evs & Htr & _).
    destruct (try_block env _ _ (enter_loading w)) as [[[]|e] w1]; simpl in *.
    - eexists. by rewrite Htr, <- !(assoc_L (++)).
    - destruct (catch_block_confined (λ _, True) "remaining-cards" "shuffle-status"
                  "error-message" e (λ _ _, I) w1) as [(evs' & Htr' & _) _].
      eexists. by rewrite Htr', Htr, <- !(assoc_L (++)). }
  apply handles_resolve_lookup in Hres
    as (_ & _ & [card Hcard] & [button Hbutton] & [banner Hbanner]).
  unfold enter_loading, replay, loading_writes. simpl. repeat split.
  - eexists. split; [page_lookup; by rewrite Hcard|]. simpl.
    case_bool_decide; [done|]. apply elem_of_app. right. by apply list_elem_of_singleton.
  - eexists. split; [page_lookup; by rewrite Hbutton|done].
  - eexists. split; [page_lookup; by rewrite Hbanner|done].
Qed.

Lemma fetchDeckData_loading_before_request_witness :
  handles_resolve (dom sample_world) ∧
  ∃ w1,
    (∀ env,
       fetchDeckData env sample_world =
         try_catch_finally
           (try_block env "remaining-cards" "shuffle-status")
           (catch_block "remaining-cards" "shuffle-status" "error-message")
           (finally_block "deck-card" "refresh-btn") w1) ∧
    trace w1 = trace sample_world ++ loading_writes ∧
    filter is_fetch loading_writes = [] ∧
    (∀ env, ∃ rest,
       trace (try_block env "remaining-cards" "shuffle-status" w1).2 =
         trace w1 ++ EvFetch get_request :: rest) ∧
    (∀ env e,
       network env get_request = Rejected e →
       try_block env "remaining-cards" "shuffle-status" w1 =
         (Thrown e,
          mkWorld (resumed env 0 (dom w1)) (trace w1 ++ [EvFetch get_request]))) ∧
    (∀ env, ∃ rest,
       trace (fetchDeckData env sample_world).2 =
         trace sample_world ++ loading_writes ++ EvFetch get_request :: rest) ∧
    (∃ card, dom w1 !! "deck-card" = Some card ∧ "loading" ∈ classList card) ∧
    (∃ button, dom w1 !! "refresh-btn" = Some button ∧
       disabled button = true ∧ textContent button = "Loading...") ∧
    (∃ banner, dom w1 !! "error-message" = Some banner ∧ style_display banner = "none").
Proof.
  split; [exact sample_page_resolves|].
  exact (fetchDeckData_loading_before_request sample_world sample_page_resolves).
Defined.

(** C8: when the five handles resolve, the function issues exactly one
    request, a GET to the deck-shuffle URL, whatever the network answers:
    nothing is retried. *)
Theorem fetchDeckData_one_request env w :
  handles_resolve (dom w) →
  ∃ evs,
    trace (fetchDeckData env w).2 = trace w ++ evs ∧
    filter is_fetch evs =
      [EvFetch (mkRequest "GET"
                  "https://www.deckofcardsapi.com/api/deck/new/shuffle/?deck_count=1")].
Proof.
  intros Hres. rewrite (fetchDeckData_resolved _ _ Hres).
  unfold try_catch_finally. rewrite with_finally_world, finally_block_run. simpl.
  unfold try_catch.
  destruct (try_block_trace env "remaining-cards" "shuffle-status" (enter_loading w))
    as (evs & Htr & Hevs).
  destruct (try_block env _ _ (enter_loading w)) as [[[]|e] w1]; simpl in *.
  - exists (loading_writes ++ EvFetch get_request :: evs ++ restoring_writes).
    rewrite Htr, <- !(assoc_L (++)). split; [done|].
    rewrite !filter_app, filter_cons, !filter_app, (filter_not_fetch evs) by done.
    done.
  - destruct (catch_block_confined not_fetch "remaining-cards" "shuffle-status"
                "error-message" e (λ _ H, H) w1) as [(evs' & Htr' & Hevs') _].
    exists (loading_writes ++ EvFetch get_request :: evs ++ evs' ++ restoring_writes).
    rewrite Htr', Htr, <- !(assoc_L (++)). split; [done|].
    rewrite !filter_app, filter_cons, !filter_app, (filter_not_fetch evs),
      (filter_not_fetch evs') by done.
    done.
Qed.

Lemma fetchDeckData_one_request_witness :
  handles_resolve (dom sample_world) ∧
  ∃ evs,
    trace (fetchDeckData (answering (mkResponse false 503 (Fulfilled VNull)))
             sample_world).2 = trace sample_world ++ evs ∧
    filter is_fetch evs =
      [EvFetch (mkRequest "GET"
                  "https://www.deckofcardsapi.com/api/deck/new/shuffle/?deck_count=1")].
Proof.
  split; [exact sample_page_resolves|].
  exact (fetchDeckData_one_request _ sample_world sample_page_resolves).
Defined.

(** C9: the validation looks at the types of [remaining] and [shuffled] and
    at nothing else: an ok response whose body is an object with a number
    there and a boolean there is rendered, whatever its other properties
    ([success], [deck_id]) are or are not. No error is logged or shown. *)
Theorem fetchDeckData_validates_two_fields env w resp props n b :
  handles_resolve (dom w) →
  network env get_request = Fulfilled resp → ok resp = true →
  json resp = Fulfilled (VObject props) →
  own_property "remaining" props = Some (VNumber n) →
  own_property "shuffled" props = Some (VBool b) →
  let run := fetchDeckData env w in
  run.1 = Normal () ∧
  trace run.2 =
    trace w ++ loading_writes ++
      [EvFetch get_request;
       EvDom "remaining-cards" (SetTextContent (number_toString n));
       EvDom "shuffle-status" (SetTextContent (if b then "Yes" else "No"));
       EvConsoleLog [VString "Full API response:"; VObject props]] ++
      restoring_writes ∧
  textContent <$> dom run.2 !! "remaining-cards" = Some (number_toString n) ∧
  textContent <$> dom run.2 !! "shuffle-status" = Some (if b then "Yes" else "No").
Proof.
  intros Hres Hnet Hok Hjson Hrem Hshuf. simpl.
  rewrite (fetchDeckData_rendered env w resp (VObject props) n b);
    [| done | done | done | done | by simpl; rewrite Hrem | by simpl; rewrite Hshuf].
  simpl. split; [done|]. split; [done|].
  apply handles_resolve_lookup in Hres as ([rem Hr] & [shuf Hs] & _).
  unfold replay, restoring_writes, render_events, loading_writes. simpl.
  split; page_lookup; by rewrite ?Hr, ?Hs.
Qed.

Lemma fetchDeckData_validates_two_fields_witness :
  let run := fetchDeckData
               (answering (mkResponse true 200 (Fulfilled (VObject odd_deck_props))))
               sample_world in
  run.1 = Normal () ∧
  trace run.2 =
    trace sample_world ++ loading_writes ++
      [EvFetch get_request;
       EvDom "remaining-cards" (SetTextContent "52");
       EvDom "shuffle-status" (SetTextContent "No");
       EvConsoleLog [VString "Full API response:"; VObject odd_deck_props]] ++
      restoring_writes ∧
  textContent <$> dom run.2 !! "remaining-cards" = Some "52" ∧
  textContent <$> dom run.2 !! "shuffle-status" = Some "No".
Proof.
  exact (fetchDeckData_validates_two_fields
           (answering (mkResponse true 200 (Fulfilled (VObject odd_deck_props))))
           sample_world (mkResponse true 200 (Fulfilled (VObject odd_deck_props)))
           odd_deck_props (NumInt 52) false
           sample_page_resolves eq_refl eq_refl eq_refl eq_refl eq_refl).
Defined.

(** Neither [success] nor [deck_id] is there. *)
Example fetchDeckData_renders_bare_deck :
  let run := fetchDeckData (answering (mkResponse true 200 (Fulfilled three_shuffled)))
               sample_world in
  run.1 = Normal () ∧ filter is_console_error (trace run.2) = [].
Proof. by vm_compute. Qed.

(** C10 as first stated fails on a nested document. On a successful run
    over a document whose deck card holds the stat fields and whose refresh
    button holds an icon, the icon, an element other than the stat fields,
    the card and the button, is no longer in the document, and the text of
    the deck card, of which only the class list was to change, has changed. *)
Lemma fetchDeckData_success_frame_nested_counterexample :
  let resp := mkResponse true 200 (Fulfilled sample_deck) in
  let env := answering resp in
  let run := fetchDeckData env nested_world in
  let after := replay_tree (trace run.2) nested_document in
  handles_resolve (dom nested_world) ∧
  network env get_request = Fulfilled resp ∧ ok resp = true ∧
  json resp = Fulfilled sample_deck ∧
  get_property sample_deck "remaining" = Normal (VNumber (NumInt 52)) ∧
  get_property sample_deck "shuffled" = Normal (VBool true) ∧
  run.1 = Normal () ∧
  ("refresh-icon" ∉ required_ids) ∧
  is_Some (find_element "refresh-icon" nested_document) ∧
  find_element "refresh-icon" after = None ∧
  node_text <$> find_element "deck-card" nested_document = Some "----" ∧
  node_text <$> find_element "deck-card" after = Some "52Yes".
Proof.
  split; [apply (bool_decide_unpack _); vm_compute; exact I|].
  do 6 (split; [reflexivity|]).
  split; [apply (bool_decide_unpack _); vm_compute; exact I|].
  split; [eexists; reflexivity|].
  split; [|split]; vm_compute; reflexivity.
Qed.

(** C10, as amended: on a successful run the events are the four loading
    writes, the request, the two texts of the stat fields, the console
    entry and the three writes of [finally]. The banner is written once,
    its display set to [none] before the request, and not again; its text
    is never written; and every write is to a stat field's text, the deck
    card's class list or the refresh button, the hiding of the banner
    apart. *)
Theorem fetchDeckData_success_frame env w resp data n b :
  handles_resolve (dom w) →
  network env get_request = Fulfilled resp → ok resp = true →
  json resp = Fulfilled data →
  get_property data "remaining" = Normal (VNumber n) →
  get_property data "shuffled" = Normal (VBool b) →
  let w' := (fetchDeckData env w).2 in
  trace w' =
    trace w ++ loading_writes ++ render_events data n b ++ restoring_writes ∧
  filter (writes_to "error-message") loading_writes =
    [EvDom "error-message" (SetStyleDisplay "none")] ∧
  filter (writes_to "error-message") (render_events data n b ++ restoring_writes) = [] ∧
  Forall success_write (loading_writes ++ render_events data n b ++ restoring_writes) ∧
  style_display <$> dom w' !! "error-message" =
    (style_display ∘ activity_upto env 2 "error-message" ∘
       apply_write (SetStyleDisplay "none")) <$> dom w !! "error-message".
Proof.
  intros Hres Hnet Hok Hjson Hrem Hshuf. cbv zeta.
  rewrite (fetchDeckData_rendered env w resp data n b) by done.
  cbn [snd dom trace].
  split; [done|]. split; [done|]. split; [done|]. split.
  - unfold loading_writes, render_events, restoring_writes. simpl.
    repeat (apply Forall_cons; split; [simpl; by eauto|]). by apply Forall_nil.
  - unfold replay, restoring_writes, render_events, loading_writes.
    cbn [foldl replay_event app].
    page_lookup. by destruct (dom w !! "error-message").
Qed.

Lemma fetchDeckData_success_frame_witness :
  let env := answering (mkResponse true 200 (Fulfilled sample_deck)) in
  let w' := (fetchDeckData env sample_world).2 in
  trace w' =
    trace sample_world ++ loading_writes ++
      render_events sample_deck (NumInt 52) true ++ restoring_writes ∧
  filter (writes_to "error-message") loading_writes =
    [EvDom "error-message" (SetStyleDisplay "none")] ∧
  filter (writes_to "error-message")
    (render_events sample_deck (NumInt 52) true ++ restoring_writes) = [] ∧
  Forall success_write
    (loading_writes ++ render_events sample_deck (NumInt 52) true ++ restoring_writes) ∧
  style_display <$> dom w' !! "error-message" = Some "none".
Proof.
  exact (fetchDeckData_success_frame
           (answering (mkResponse true 200 (Fulfilled sample_deck))) sample_world
           (mkResponse true 200 (Fulfilled sample_deck)) sample_deck (NumInt 52) true
           sample_page_resolves eq_refl eq_refl eq_refl eq_refl eq_refl).
Defined.

(** ** Every way a run can go *)

Lemma get_property_readable data k k' v :
  get_property data k = Normal v → ∃ v', get_property data k' = Normal v'.
Proof. destruct data; simpl; intros Hget; try done; by eexists. Qed.

(** The [try] body either throws, having done nothing but send the
    request, or finds a body to render. *)
Lemma try_block_cases env r s w :
  (∃ e w1,
     try_block env r s w = (Thrown e, w1) ∧
     trace w1 = trace w ++ [EvFetch get_request] ∧
     (∀ id, dom w1 !! id = activity_upto env 1 id <$> dom w !! id ∨
            dom w1 !! id = activity_upto env 2 id <$> dom w !! id)) ∨
  (∃ resp data n b,
     network env get_request = Fulfilled resp ∧ ok resp = true ∧
     json resp = Fulfilled data ∧
     get_property data "remaining" = Normal (VNumber n) ∧
     get_property data "shuffled" = Normal (VBool b)).
Proof.
  assert (∀ id, dom (after_fetch env w) !! id = activity_upto env 1 id <$> dom w !! id)
    as Hfetch.
  { intros id. simpl. by rewrite lookup_resumed. }
  assert (∀ id, dom (after_json env w) !! id = activity_upto env 2 id <$> dom w !! id)
    as Hjson.
  { intros id. simpl. rewrite !lookup_resumed. by destruct (dom w !! id). }
  destruct (network env get_request) as [resp|e] eqn:Hnet;
    [|left; eexists _, _; split; [by apply try_block_fetch_rejected|]; by eauto].
  destruct (ok resp) eqn:Hok;
    [|left; eexists _, _; split; [by eapply try_block_not_ok|]; by eauto].
  destruct (json resp) as [data|e] eqn:Hbody;
    [|left; eexists _, _; split; [by eapply try_block_json_rejected|]; by eauto].
  destruct (get_property data "remaining") as [remaining|e] eqn:Hrem;
    [|left; eexists _, _; split; [by eapply try_block_unreadable|]; by eauto].
  destruct (get_property_readable data "remaining" "shuffled" _ Hrem) as [shuffled Hshuf].
  destruct (decide (typeof remaining = "number")) as [Hr|Hr].
  - destruct (decide (typeof shuffled = "boolean")) as [Hs|Hs].
    + right. destruct remaining; try done. destruct shuffled; try done.
      by eexists _, _, _, _.
    + left. eexists _, _. split; [eapply try_block_invalid; eauto|]. by eauto.
  - left. eexists _, _. split; [eapply try_block_invalid; eauto|]. by eauto.
Qed.

(** The run when the [catch] clause itself throws. *)
Lemma fetchDeckData_catch_throws env w e w1 message t :
  handles_resolve (dom w) →
  try_block env "remaining-cards" "shuffle-status" (enter_loading w) = (Thrown e, w1) →
  instanceof_Error e = false → typeof e ≠ "string" →
  is_object e → has_property "message" e = Normal true →
  get_property e "message" = Normal message →
  to_String message = Thrown t →
  fetchDeckData env w =
    (Thrown t,
     mkWorld (replay restoring_writes (dom w1))
       (trace w1 ++
          EvConsoleError [VString "Error fetching deck data:"; e] :: restoring_writes)).
Proof.
  intros Hres Htry Herr Hstr Hobj Hhas Hget Hto.
  rewrite (fetchDeckData_resolved _ _ Hres).
  erewrite try_catch_finally_caught;
    [| exact Htry | by eapply catch_block_throws | apply finally_block_run].
  simpl. by rewrite <- !(assoc_L (++)).
Qed.

(** A run on a page whose handles resolve is a rendering, a failure that is
    shown, or a failure whose text cannot be made. *)
Lemma fetchDeckData_cases env w :
  handles_resolve (dom w) →
  (∃ resp data n b,
     network env get_request = Fulfilled resp ∧ ok resp = true ∧
     json resp = Fulfilled data ∧
     get_property data "remaining" = Normal (VNumber n) ∧
     get_property data "shuffled" = Normal (VBool b) ∧
     fetchDeckData env w =
       (Normal (),
        mkWorld
          (replay restoring_writes
             (replay (render_events data n b)
                (resumed env 1 (resumed env 0 (replay loading_writes (dom w))))))
          (trace w ++ loading_writes ++ render_events data n b ++ restoring_writes))) ∨
  (∃ e w1 text,
     try_block env "remaining-cards" "shuffle-status" (enter_loading w) = (Thrown e, w1) ∧
     error_text e text ∧
     fetchDeckData env w =
       (Normal (),
        mkWorld
          (replay restoring_writes
             (replay (error_writes "remaining-cards" "shuffle-status" "error-message" text)
                (dom w1)))
          (trace w ++ loading_writes ++
             [EvFetch get_request;
              EvConsoleError [VString "Error fetching deck data:"; e]] ++
             error_writes "remaining-cards" "shuffle-status" "error-message" text ++
             restoring_writes))) ∨
  (∃ e w1 message t,
     try_block env "remaining-cards" "shuffle-status" (enter_loading w) = (Thrown e, w1) ∧
     instanceof_Error e = false ∧ typeof e ≠ "string" ∧ is_object e ∧
     has_property "message" e = Normal true ∧
     get_property e "message" = Normal message ∧ to_String message = Thrown t ∧
     fetchDeckData env w =
       (Thrown t,
        mkWorld (replay restoring_writes (dom w1))
          (trace w ++ loading_writes ++
             [EvFetch get_request;
              EvConsoleError [VString "Error fetching deck data:"; e]] ++
             restoring_writes))).
Proof.
  intros Hres.
  destruct (try_block_cases env "remaining-cards" "shuffle-status" (enter_loading w))
    as [(e & w1 & Htry & Htr & _)|(resp & data & n & b & Hnet & Hok & Hbody & Hrem & Hshuf)].
  - right.
    destruct (error_text_or_throws e)
      as [[text Htext]|(message & t & Herr & Hstr & Hobj & Hhas & Hget & Hto)].
    + left. exists e, w1, text. split; [done|]. split; [done|].
      rewrite (fetchDeckData_failed env w e w1 text Hres Htry Htext).
      rewrite Htr. simpl. by rewrite <- !(assoc_L (++)).
    + right. exists e, w1, message, t. repeat (split; [done|]).
      rewrite (fetchDeckData_catch_throws env w e w1 message t) by done.
      rewrite Htr. simpl. by rewrite <- !(assoc_L (++)).
  - left. exists resp, data, n, b. repeat (split; [done|]).
    by apply (fetchDeckData_rendered env w resp).
Qed.

(** ** Further properties of the function *)

(** X1: when the [try] body throws, all it has done is send the request:
    nothing of the response has been written to the page or the console. *)
Theorem try_block_throws_before_writing env r s w e w1 :
  try_block env r s w = (Thrown e, w1) →
  trace w1 = trace w ++ [EvFetch get_request].
Proof.
  intros Htry.
  destruct (try_block_cases env r s w)
    as [(e' & w1' & Htry' & Htr & _)|(resp & data & n & b & Hnet & Hok & Hbody & Hrem & Hshuf)].
  - rewrite Htry in Htry'. by simplify_eq.
  - by rewrite (try_block_valid env r s w resp data n b) in Htry.
Qed.

Lemma try_block_throws_before_writing_witness :
  trace (after_json (answering (mkResponse true 200 (Fulfilled mistyped_deck)))
           sample_world) =
    trace sample_world ++ [EvFetch get_request].
Proof.
  exact (try_block_throws_before_writing
           (answering (mkResponse true 200 (Fulfilled mistyped_deck)))
           "remaining-cards" "shuffle-status" sample_world
           (new_Error "Invalid API response structure") _ eq_refl).
Defined.

(** The events a run adds, case by case. *)
Lemma fetchDeckData_events env w :
  ∃ evs,
    trace (fetchDeckData env w).2 = trace w ++ evs ∧
    (evs = [EvConsoleError [VString "Required DOM elements not found"]] ∨
     (∃ data n b, evs = loading_writes ++ render_events data n b ++ restoring_writes) ∨
     (∃ e text,
        evs = loading_writes ++
                [EvFetch get_request;
                 EvConsoleError [VString "Error fetching deck data:"; e]] ++
                error_writes "remaining-cards" "shuffle-status" "error-message" text ++
                restoring_writes) ∨
     (∃ e,
        evs = loading_writes ++
                [EvFetch get_request;
                 EvConsoleError [VString "Error fetching deck data:"; e]] ++
                restoring_writes)).
Proof.
  destruct (decide (handles_resolve (dom w))) as [Hres|Hmissing].
  - destruct (fetchDeckData_cases env w Hres)
      as [(resp & data & n & b & _ & _ & _ & _ & _ & ->)
         |[(e & w1 & text & _ & _ & ->)|(e & w1 & message & t & _ & _ & _ & _ & _ & _ & _ & ->)]];
      simpl; eexists; (split; [done|]); eauto 10.
  - rewrite (fetchDeckData_unresolved env w Hmissing). simpl. eexists. split; [done|]. eauto.
Qed.

(** X2: every invocation leaves exactly one entry on the console, however it
    goes. *)
Theorem fetchDeckData_one_console_entry env w :
  ∃ evs entry,
    trace (fetchDeckData env w).2 = trace w ++ evs ∧
    filter is_console evs = [entry].
Proof.
  destruct (fetchDeckData_events env w)
    as (evs & Htr & [Hev|[(data & n & b & Hev)|[(e & text & Hev)|(e & Hev)]]]);
    exists evs; eexists; (split; [exact Htr|]); by rewrite Hev.
Qed.

(** X3: whatever the environment does, the function writes to no element
    but the five it looks up. *)
Theorem fetchDeckData_writes_required_only env w :
  ∃ evs,
    trace (fetchDeckData env w).2 = trace w ++ evs ∧
    Forall targets_required evs.
Proof.
  assert (∀ id, bool_decide (id ∈ required_ids) = true → id ∈ required_ids) as Hin.
  { intros id. apply bool_decide_eq_true_1. }
  destruct (fetchDeckData_events env w)
    as (evs & Htr & [Hev|[(data & n & b & Hev)|[(e & text & Hev)|(e & Hev)]]]);
    exists evs; (split; [exact Htr|]); rewrite Hev;
    unfold loading_writes, render_events, error_writes, restoring_writes; simpl;
    repeat (apply Forall_cons; split; [simpl; try done; by apply Hin|]);
    by apply Forall_nil.
Qed.

(** X5: on a page whose handles resolve, the writes the function makes to
    the deck card and to the refresh button are, whatever the response,
    exactly the three that enter the loading state and then the three of
    [finally]: the [try] body and the [catch] clause write to neither. *)
Theorem fetchDeckData_controls_bracketed env w :
  handles_resolve (dom w) →
  ∃ evs,
    trace (fetchDeckData env w).2 = trace w ++ evs ∧
    filter touches_controls evs =
      [EvDom "deck-card" (ClassListAdd "loading");
       EvDom "refresh-btn" (SetDisabled true);
       EvDom "refresh-btn" (SetTextContent "Loading...");
       EvDom "deck-card" (ClassListRemove "loading");
       EvDom "refresh-btn" (SetDisabled false);
       EvDom "refresh-btn" (SetTextContent "Get New Deck")].
Proof.
  intros Hres.
  destruct (fetchDeckData_cases env w Hres)
    as [(resp & data & n & b & _ & _ & _ & _ & _ & ->)
       |[(e & w1 & text & _ & _ & ->)|(e & w1 & message & t & _ & _ & _ & _ & _ & _ & _ & ->)]];
    simpl; by eexists.
Qed.

Lemma fetchDeckData_controls_bracketed_witness :
  ∃ evs,
    trace (fetchDeckData (answering (mkResponse false 500 (Fulfilled VNull)))
             sample_world).2 = trace sample_world ++ evs ∧
    filter touches_controls evs =
      [EvDom "deck-card" (ClassListAdd "loading");
       EvDom "refresh-btn" (SetDisabled true);
       EvDom "refresh-btn" (SetTextContent "Loading...");
       EvDom "deck-card" (ClassListRemove "loading");
       EvDom "refresh-btn" (SetDisabled false);
       EvDom "refresh-btn" (SetTextContent "Get New Deck")].
Proof.
  exact (fetchDeckData_controls_bracketed _ sample_world sample_page_resolves).
Defined.

Lemma filter_after_add (token : string) (l : list string) :
  filter (λ t, t ≠ token) (if bool_decide (token ∈ l) then l else l ++ [token]) =
  filter (λ t, t ≠ token) l.
Proof.
  case_bool_decide; [done|].
  rewrite filter_app, filter_cons, decide_False by (by intros ?).
  by rewrite filter_nil, app_nil_r.
Qed.

(** When nothing else runs and the handles resolve: the page left is the
    page found with the loading writes, the events of [try] and [catch], and
    the writes of [finally] replayed. *)
Lemma fetchDeckData_quiet_page_resolved net w :
  handles_resolve (dom w) →
  ∃ mid,
    dom (fetchDeckData (quiet net) w).2 =
      replay (loading_writes ++ mid ++ restoring_writes) (dom w) ∧
    ((∃ data n b, mid = render_events data n b) ∨
     (∃ e text,
        mid = [EvFetch get_request;
               EvConsoleError [VString "Error fetching deck data:"; e]] ++
              error_writes "remaining-cards" "shuffle-status" "error-message" text) ∨
     (∃ e,
        mid = [EvFetch get_request;
               EvConsoleError [VString "Error fetching deck data:"; e]])).
Proof.
  intros Hres.
  destruct (fetchDeckData_tracked net w) as (evs & Htr & ->).
  destruct (fetchDeckData_cases (quiet net) w Hres)
    as [(resp & data & n & b & _ & _ & _ & _ & _ & Hrun)
       |[(e & w1 & text & _ & _ & Hrun)
        |(e & w1 & message & t & _ & _ & _ & _ & _ & _ & _ & Hrun)]];
    rewrite Hrun in Htr; simpl in Htr; apply app_inv_head in Htr; subst evs.
  - exists (render_events data n b). split; [reflexivity|]. eauto 10.
  - eexists ([_; _] ++ error_writes _ _ _ text). split; [reflexivity|]. eauto 10.
  - eexists [_; _]. split; [reflexivity|]. eauto 10.
Qed.

(** X6: when nothing else runs, a run on a page whose handles resolve leaves
    the deck card with the classes it had, in order, minus [loading], and
    with its disabled flag and display style; the refresh button ends with
    the label "Get New Deck", enabled, its classes and display style as
    they were. *)
Theorem fetchDeckData_controls_after net w card button :
  handles_resolve (dom w) →
  dom w !! "deck-card" = Some card →
  dom w !! "refresh-btn" = Some button →
  let w' := (fetchDeckData (quiet net) w).2 in
  classList <$> dom w' !! "deck-card" =
    Some (filter (λ t, t ≠ "loading") (classList card)) ∧
  disabled <$> dom w' !! "deck-card" = Some (disabled card) ∧
  style_display <$> dom w' !! "deck-card" = Some (style_display card) ∧
  dom w' !! "refresh-btn" =
    Some (mkElement "Get New Deck" (classList button) false (style_display button)).
Proof.
  intros Hres Hcard Hbutton. cbv zeta.
  destruct (fetchDeckData_quiet_page_resolved net w Hres)
    as (mid & -> & [(data & n & b & ->)|[(e & text & ->)|(e & ->)]]);
    unfold replay, loading_writes, render_events, error_writes, restoring_writes;
    cbn [foldl replay_event app];
    (repeat split; page_lookup; rewrite ?Hcard, ?Hbutton; simpl; try done);
    by rewrite filter_after_add.
Qed.

Lemma fetchDeckData_controls_after_witness :
  let w' := (fetchDeckData (answering (mkResponse true 200 (Fulfilled sample_deck)))
               sample_world).2 in
  classList <$> dom w' !! "deck-card" = Some ["card"] ∧
  disabled <$> dom w' !! "deck-card" = Some false ∧
  style_display <$> dom w' !! "deck-card" = Some "" ∧
  dom w' !! "refresh-btn" = Some (mkElement "Get New Deck" ["btn"] false "").
Proof.
  exact (fetchDeckData_controls_after
           (λ _, Fulfilled (mkResponse true 200 (Fulfilled sample_deck))) sample_world
           (mkElement "" ["card"] false "") (mkElement "Get New Deck" ["btn"] false "")
           sample_page_resolves eq_refl eq_refl).
Defined.

(** Where a value thrown by the [try] body comes from: a rejected [fetch],
    a rejected [json()], or the body itself, and then it has a text. *)
Lemma try_block_thrown env r s w e w1 :
  try_block env r s w = (Thrown e, w1) →
  network env get_request = Rejected e ∨
  (∃ resp, network env get_request = Fulfilled resp ∧ json resp = Rejected e) ∨
  (∃ text, error_text e text).
Proof.
  intros Htry.
  destruct (network env get_request) as [resp|e'] eqn:Hnet.
  - destruct (ok resp) eqn:Hok.
    + destruct (json resp) as [data|e'] eqn:Hbody.
      * right. right.
        destruct (get_property data "remaining") as [remaining|e'] eqn:Hrem.
        -- destruct (get_property_readable data "remaining" "shuffled" _ Hrem)
             as [shuffled Hshuf].
           destruct (decide (typeof remaining = "number")) as [Hr|Hr];
             [destruct (decide (typeof shuffled = "boolean")) as [Hs|Hs]|].
           ++ destruct remaining; try done. destruct shuffled; try done.
              by rewrite (try_block_valid env r s w resp data n b) in Htry.
           ++ rewrite (try_block_invalid env r s w resp data remaining shuffled)
                in Htry by eauto.
              simplify_eq. eexists. apply text_of_Error.
           ++ rewrite (try_block_invalid env r s w resp data remaining shuffled)
                in Htry by eauto.
              simplify_eq. eexists. apply text_of_Error.
        -- rewrite (try_block_unreadable env r s w resp data e') in Htry by done.
           simplify_eq. destruct data; simpl in Hrem; simplify_eq;
             eexists; apply text_of_Error.
      * rewrite (try_block_json_rejected env r s w resp e') in Htry by done.
        simplify_eq. right. left. by exists resp.
    + rewrite (try_block_not_ok env r s w resp) in Htry by done.
      simplify_eq. right. right. eexists. apply error_text_api_error.
  - rewrite (try_block_fetch_rejected env r s w e') in Htry by done.
    simplify_eq. by left.
Qed.

Lemma error_text_printable e text message t :
  error_text e text →
  instanceof_Error e = false → typeof e ≠ "string" →
  is_object e → has_property "message" e = Normal true →
  get_property e "message" = Normal message →
  to_String message = Thrown t → False.
Proof.
  intros Htext Herr Hstr Hobj Hhas Hget Hto.
  destruct Htext; simpl in *; try done; [congruence | tauto].
Qed.

(** X7: when [fetch] and [json()] reject with instances of [Error] only, as
    they do in a browser, the promise of [fetchDeckData] is never rejected:
    every failure ends in the [catch] clause. *)
Theorem fetchDeckData_fulfils env w :
  rejects_with_errors env →
  (fetchDeckData env w).1 = Normal ().
Proof.
  intros [Hfetch Hjson].
  destruct (decide (handles_resolve (dom w))) as [Hres|Hmissing];
    [|by rewrite (fetchDeckData_unresolved env w Hmissing)].
  destruct (fetchDeckData_cases env w Hres)
    as [(resp & data & n & b & _ & _ & _ & _ & _ & ->)
       |[(e & w1 & text & _ & _ & ->)
        |(e & w1 & message & t & Htry & Herr & Hstr & Hobj & Hhas & Hget & Hto & _)]];
    [done|done|].
  exfalso.
  destruct (try_block_thrown _ _ _ _ _ _ Htry) as [Hnet|[(resp & Hnet & Hbody)|[text Htext]]].
  - apply Hfetch in Hnet. congruence.
  - apply (Hjson _ _ _ Hnet) in Hbody. congruence.
  - by eapply error_text_printable.
Qed.

Lemma fetchDeckData_fulfils_witness :
  rejects_with_errors (failing (TypeError "Failed to fetch")) ∧
  (fetchDeckData (failing (TypeError "Failed to fetch")) sample_world).1 = Normal ().
Proof.
  assert (rejects_with_errors (failing (TypeError "Failed to fetch"))) as Henv.
  { split.
    - intros req e Hnet. injection Hnet as <-. reflexivity.
    - intros req resp e Hnet. discriminate Hnet. }
  split; [exact Henv|].
  exact (fetchDeckData_fulfils _ sample_world Henv).
Defined.

(** X8: when [fetch] rejects with an object whose [message] cannot be made a
    string, the [catch] clause throws while deriving the text: the promise
    of [fetchDeckData] is rejected with that error, and apart from the
    console entry the run has only entered and left the loading state, so
    the stat fields are never set to "Error" and the banner stays hidden. *)
Theorem fetchDeckData_unprintable_rejection env w e message t :
  handles_resolve (dom w) →
  network env get_request = Rejected e →
  instanceof_Error e = false → typeof e ≠ "string" →
  is_object e → has_property "message" e = Normal true →
  get_property e "message" = Normal message →
  to_String message = Thrown t →
  let run := fetchDeckData env w in
  run.1 = Thrown t ∧
  trace run.2 =
    trace w ++ loading_writes ++
      [EvFetch get_request;
       EvConsoleError [VString "Error fetching deck data:"; e]] ++
      restoring_writes ∧
  dom run.2 !! "remaining-cards" =
    page_activity env 0 "remaining-cards" <$> dom w !! "remaining-cards" ∧
  dom run.2 !! "shuffle-status" =
    page_activity env 0 "shuffle-status" <$> dom w !! "shuffle-status" ∧
  dom run.2 !! "error-message" =
    (page_activity env 0 "error-message" ∘ apply_write (SetStyleDisplay "none"))
      <$> dom w !! "error-message".
Proof.
  intros Hres Hnet Herr Hstr Hobj Hhas Hget Hto. simpl.
  rewrite (fetchDeckData_catch_throws env w e (after_fetch env (enter_loading w)) message t)
    by (try done; by apply try_block_fetch_rejected).
  simpl. split; [done|]. split; [by rewrite <- !(assoc_L (++))|].
  unfold replay, restoring_writes, loading_writes. simpl.
  repeat split; page_lookup; done.
Qed.

Lemma fetchDeckData_unprintable_rejection_witness :
  let run := fetchDeckData (failing unprintable) sample_world in
  run.1 = Thrown (TypeError "Cannot convert object to primitive value") ∧
  trace run.2 =
    trace sample_world ++ loading_writes ++
      [EvFetch get_request;
       EvConsoleError [VString "Error fetching deck data:"; unprintable]] ++
      restoring_writes ∧
  dom run.2 !! "remaining-cards" = Some (mkElement "--" ["stat"] false "") ∧
  dom run.2 !! "shuffle-status" = Some (mkElement "--" ["stat"] false "") ∧
  dom run.2 !! "error-message" =
    Some (mkElement "Failed to load deck data: old" [] false "none").
Proof.
  apply (fetchDeckData_unprintable_rejection (failing unprintable) sample_world
           unprintable (VObject [("toString", VNull)])
           (TypeError "Cannot convert object to primitive value")
           sample_page_resolves eq_refl eq_refl).
  - discriminate.
  - split; [reflexivity | discriminate].
  - reflexivity.
  - reflexivity.
  - reflexivity.
Defined.

(** The events of a run that fails with [e] and shows [text]. *)
Lemma failed_trace env w e w1 text :
  handles_resolve (dom w) →
  try_block env "remaining-cards" "shuffle-status" (enter_loading w) = (Thrown e, w1) →
  error_text e text →
  fetchDeckData env w =
    (Normal (),
     mkWorld
       (replay restoring_writes
          (replay (error_writes "remaining-cards" "shuffle-status" "error-message" text)
             (dom w1)))
       (trace w ++ loading_writes ++
          [EvFetch get_request;
           EvConsoleError [VString "Error fetching deck data:"; e]] ++
          error_writes "remaining-cards" "shuffle-status" "error-message" text ++
          restoring_writes)).
Proof.
  intros Hres Htry Htext.
  rewrite (fetchDeckData_failed env w e w1 text Hres Htry Htext).
  destruct (try_block_cases env "remaining-cards" "shuffle-status" (enter_loading w))
    as [(e' & w1' & Htry' & Htr & _)|(resp & data & n & b & Hnet & Hok & Hbody & Hrem & Hshuf)].
  - rewrite Htry in Htry'. simplify_eq. rewrite Htr. simpl.
    by rewrite <- !(assoc_L (++)).
  - by rewrite (try_block_valid env _ _ _ resp data n b) in Htry.
Qed.

(** X9: when [fetch] itself rejects with a reason that has a text (for an
    [Error], its message), the run still ends normally: one request and no
    other, one console error, both stat fields "Error", and the banner
    displayed with "Failed to load deck data: " and that text. *)
Theorem fetchDeckData_network_failure env w e text :
  handles_resolve (dom w) →
  network env get_request = Rejected e →
  error_text e text →
  let run := fetchDeckData env w in
  run.1 = Normal () ∧
  trace run.2 =
    trace w ++ loading_writes ++
      [EvFetch get_request;
       EvConsoleError [VString "Error fetching deck data:"; e]] ++
      error_writes "remaining-cards" "shuffle-status" "error-message" text ++
      restoring_writes ∧
  textContent <$> dom run.2 !! "remaining-cards" = Some "Error" ∧
  textContent <$> dom run.2 !! "shuffle-status" = Some "Error" ∧
  textContent <$> dom run.2 !! "error-message" =
    Some ("Failed to load deck data: " +:+ text) ∧
  style_display <$> dom run.2 !! "error-message" = Some "block".
Proof.
  intros Hres Hnet Htext. simpl.
  pose proof (try_block_fetch_rejected env "remaining-cards" "shuffle-status"
                (enter_loading w) e Hnet) as Htry.
  rewrite (failed_trace env w _ _ _ Hres Htry Htext). cbn [fst snd dom trace].
  split; [done|]. split; [done|].
  by apply (failed_page _ text), (try_block_resolves env w _ _ Hres Htry).
Qed.

Lemma fetchDeckData_network_failure_witness :
  let run := fetchDeckData (failing (TypeError "Failed to fetch")) sample_world in
  run.1 = Normal () ∧
  trace run.2 =
    trace sample_world ++ loading_writes ++
      [EvFetch get_request;
       EvConsoleError [VString "Error fetching deck data:"; TypeError "Failed to fetch"]] ++
      error_writes "remaining-cards" "shuffle-status" "error-message" "Failed to fetch" ++
      restoring_writes ∧
  textContent <$> dom run.2 !! "remaining-cards" = Some "Error" ∧
  textContent <$> dom run.2 !! "shuffle-status" = Some "Error" ∧
  textContent <$> dom run.2 !! "error-message" =
    Some "Failed to load deck data: Failed to fetch" ∧
  style_display <$> dom run.2 !! "error-message" = Some "block".
Proof.
  exact (fetchDeckData_network_failure (failing (TypeError "Failed to fetch"))
           sample_world (TypeError "Failed to fetch") "Failed to fetch"
           sample_page_resolves eq_refl (text_of_Error "TypeError" "Failed to fetch")).
Defined.

(** X10: when the response is ok but [json()] rejects (the body is not
    JSON), nothing is rendered: both stat fields show "Error", the banner is
    displayed with the text of the rejection, and the run ends normally. *)
Theorem fetchDeckData_unparsable_body env w resp e text :
  handles_resolve (dom w) →
  network env get_request = Fulfilled resp → ok resp = true →
  json resp = Rejected e →
  error_text e text →
  let run := fetchDeckData env w in
  run.1 = Normal () ∧
  filter is_console (trace run.2) =
    filter is_console (trace w) ++
      [EvConsoleError [VString "Error fetching deck data:"; e]] ∧
  textContent <$> dom run.2 !! "remaining-cards" = Some "Error" ∧
  textContent <$> dom run.2 !! "shuffle-status" = Some "Error" ∧
  textContent <$> dom run.2 !! "error-message" =
    Some ("Failed to load deck data: " +:+ text) ∧
  style_display <$> dom run.2 !! "error-message" = Some "block".
Proof.
  intros Hres Hnet Hok Hbody Htext. cbv zeta.
  pose proof (try_block_json_rejected env "remaining-cards" "shuffle-status"
                (enter_loading w) resp e Hnet Hok Hbody) as Htry.
  rewrite (failed_trace env w _ _ _ Hres Htry Htext). cbn [fst snd dom trace].
  split; [done|]. split; [by rewrite filter_app|].
  by apply (failed_page _ text), (try_block_resolves env w _ _ Hres Htry).
Qed.

Lemma fetchDeckData_unparsable_body_witness :
  let run := fetchDeckData (answering (mkResponse true 200 (Rejected not_json)))
               sample_world in
  run.1 = Normal () ∧
  filter is_console (trace run.2) =
    filter is_console (trace sample_world) ++
      [EvConsoleError [VString "Error fetching deck data:"; not_json]] ∧
  textContent <$> dom run.2 !! "remaining-cards" = Some "Error" ∧
  textContent <$> dom run.2 !! "shuffle-status" = Some "Error" ∧
  textContent <$> dom run.2 !! "error-message" =
    Some "Failed to load deck data: Unexpected token < in JSON at position 0" ∧
  style_display <$> dom run.2 !! "error-message" = Some "block".
Proof.
  exact (fetchDeckData_unparsable_body
           (answering (mkResponse true 200 (Rejected not_json))) sample_world
           (mkResponse true 200 (Rejected not_json)) not_json
           "Unexpected token < in JSON at position 0"
           sample_page_resolves eq_refl eq_refl eq_refl
           (text_of_Error "SyntaxError" "Unexpected token < in JSON at position 0")).
Defined.

(** X11: when the response is ok and its body is a value whose properties
    cannot be read ([null]), the validation is never reached: what is thrown
    is the TypeError of the property access, and the banner shows that
    error's message, not "Invalid API response structure". *)
Theorem fetchDeckData_unreadable_body env w resp data e :
  handles_resolve (dom w) →
  network env get_request = Fulfilled resp → ok resp = true →
  json resp = Fulfilled data →
  get_property data "remaining" = Thrown e →
  let run := fetchDeckData env w in
  ∃ message,
    e = TypeError message ∧
    message ≠ "Invalid API response structure" ∧
    run.1 = Normal () ∧
    EvConsoleError [VString "Error fetching deck data:"; e] ∈ trace run.2 ∧
    textContent <$> dom run.2 !! "remaining-cards" = Some "Error" ∧
    textContent <$> dom run.2 !! "shuffle-status" = Some "Error" ∧
    textContent <$> dom run.2 !! "error-message" =
      Some ("Failed to load deck data: " +:+ message) ∧
    style_display <$> dom run.2 !! "error-message" = Some "block".
Proof.
  intros Hres Hnet Hok Hbody Hrem. cbv zeta.
  pose proof (try_block_unreadable env "remaining-cards" "shuffle-status"
                (enter_loading w) resp data e Hnet Hok Hbody Hrem) as Htry.
  assert (∃ message, e = TypeError message ∧ message ≠ "Invalid API response structure")
    as (message & -> & Hother).
  { destruct data; simpl in Hrem; simplify_eq; by eexists. }
  exists message. split; [done|]. split; [done|].
  rewrite (failed_trace env w _ _ _ Hres Htry (text_of_Error _ _)). cbn [fst snd dom trace].
  split; [done|]. split.
  - apply elem_of_app. right. do 5 apply list_elem_of_further. apply list_elem_of_here.
  - by apply (failed_page _ message), (try_block_resolves env w _ _ Hres Htry).
Qed.

Lemma fetchDeckData_unreadable_body_witness :
  let run := fetchDeckData (answering (mkResponse true 200 (Fulfilled VNull)))
               sample_world in
  ∃ message,
    TypeError "Cannot read properties of null (reading 'remaining')" = TypeError message ∧
    message ≠ "Invalid API response structure" ∧
    run.1 = Normal () ∧
    EvConsoleError
      [VString "Error fetching deck data:";
       TypeError "Cannot read properties of null (reading 'remaining')"] ∈ trace run.2 ∧
    textContent <$> dom run.2 !! "remaining-cards" = Some "Error" ∧
    textContent <$> dom run.2 !! "shuffle-status" = Some "Error" ∧
    textContent <$> dom run.2 !! "error-message" =
      Some ("Failed to load deck data: " +:+ message) ∧
    style_display <$> dom run.2 !! "error-message" = Some "block".
Proof.
  exact (fetchDeckData_unreadable_body
           (answering (mkResponse true 200 (Fulfilled VNull))) sample_world
           (mkResponse true 200 (Fulfilled VNull)) VNull
           (TypeError "Cannot read properties of null (reading 'remaining')")
           sample_page_resolves eq_refl eq_refl eq_refl eq_refl).
Defined.

(** X12: the body of a response that is not ok is never looked at: two
    environments that differ only in it, the status being the same, give
    the same run. *)
Theorem fetchDeckData_ignores_failed_body env env' w resp resp' :
  network env get_request = Fulfilled resp →
  network env' get_request = Fulfilled resp' →
  ok resp = false → ok resp' = false →
  status resp = status resp' →
  page_activity env = page_activity env' →
  fetchDeckData env w = fetchDeckData env' w.
Proof.
  intros Hnet Hnet' Hok Hok' Hstatus Hactivity.
  destruct (decide (handles_resolve (dom w))) as [Hres|Hmissing];
    [|by rewrite !fetchDeckData_unresolved].
  pose proof (try_block_not_ok env "remaining-cards" "shuffle-status"
                (enter_loading w) resp Hnet Hok) as Htry.
  pose proof (try_block_not_ok env' "remaining-cards" "shuffle-status"
                (enter_loading w) resp' Hnet' Hok') as Htry'.
  rewrite (fetchDeckData_failed env w _ _ _ Hres Htry (error_text_api_error _)).
  rewrite (fetchDeckData_failed env' w _ _ _ Hres Htry' (error_text_api_error _)).
  unfold after_fetch, resumed. by rewrite Hstatus, Hactivity.
Qed.

Lemma fetchDeckData_ignores_failed_body_witness :
  fetchDeckData (answering (mkResponse false 404 (Fulfilled sample_deck))) sample_world =
  fetchDeckData (answering (mkResponse false 404 (Rejected not_json))) sample_world.
Proof.
  exact (fetchDeckData_ignores_failed_body
           (answering (mkResponse false 404 (Fulfilled sample_deck)))
           (answering (mkResponse false 404 (Rejected not_json))) sample_world
           (mkResponse false 404 (Fulfilled sample_deck))
           (mkResponse false 404 (Rejected not_json))
           eq_refl eq_refl eq_refl eq_refl eq_refl eq_refl).
Defined.

(** A run removes no element: handles that resolve before it resolve after
    it, so the function can be invoked again. *)
Lemma fetchDeckData_keeps_handles env w :
  handles_resolve (dom w) → handles_resolve (dom (fetchDeckData env w).2).
Proof.
  intros Hres.
  destruct (fetchDeckData_ends_in_finally env w Hres) as (w1 & Hres1 & ->). simpl.
  unfold handles_resolve in *. eapply Forall_impl; [exact Hres1|].
  intros id Hid. unfold replay, restoring_writes. simpl.
  by repeat apply lookup_alter_is_Some.
Qed.



(** How the [try] body completes depends on the environment, not on the
    page. *)
Lemma try_block_completion env r s w w' :
  (try_block env r s w).1 = (try_block env r s w').1.
Proof.
  destruct (network env get_request) as [resp|e] eqn:Hnet;
    [|by rewrite !(try_block_fetch_rejected env r s _ e)].
  destruct (ok resp) eqn:Hok; [|by rewrite !(try_block_not_ok env r s _ resp)].
  destruct (json resp) as [data|e] eqn:Hbody;
    [|by rewrite !(try_block_json_rejected env r s _ resp e)].
  destruct (get_property data "remaining") as [remaining|e] eqn:Hrem;
    [|by rewrite !(try_block_unreadable env r s _ resp data e)].
  destruct (get_property_readable data "remaining" "shuffled" _ Hrem) as [shuffled Hshuf].
  destruct (decide (typeof remaining = "number")) as [Hr|Hr];
    [destruct (decide (typeof shuffled = "boolean")) as [Hs|Hs]|].
  - destruct remaining; try done. destruct shuffled; try done.
    by rewrite !(try_block_valid env r s _ resp data n b).
  - by rewrite !(try_block_invalid env r s _ resp data remaining shuffled) by eauto.
  - by rewrite !(try_block_invalid env r s _ resp data remaining shuffled) by eauto.
Qed.

(** The events of a run whose [catch] clause throws. *)
Lemma unshown_trace env w e w1 message t :
  handles_resolve (dom w) →
  try_block env "remaining-cards" "shuffle-status" (enter_loading w) = (Thrown e, w1) →
  instanceof_Error e = false → typeof e ≠ "string" →
  is_object e → has_property "message" e = Normal true →
  get_property e "message" = Normal message →
  to_String message = Thrown t →
  trace (fetchDeckData env w).2 =
    trace w ++ loading_writes ++
      [EvFetch get_request;
       EvConsoleError [VString "Error fetching deck data:"; e]] ++
      restoring_writes.
Proof.
  intros Hres Htry Herr Hstr Hobj Hhas Hget Hto.
  rewrite (fetchDeckData_catch_throws env w e w1 message t) by done.
  destruct (try_block_cases env "remaining-cards" "shuffle-status" (enter_loading w))
    as [(e' & w1' & Htry' & Htr & _)|(resp & data & n & b & Hnet & Hok & Hbody & Hrem & Hshuf)].
  - rewrite Htry in Htry'. simplify_eq. simpl. rewrite Htr. simpl.
    by rewrite <- !(assoc_L (++)).
  - by rewrite (try_block_valid env _ _ _ resp data n b) in Htry.
Qed.

(** With the same answer from the network and nothing else running, a
    second run replays on the page the events the first run replayed. *)
Lemma quiet_rerun net w :
  handles_resolve (dom w) →
  let once := (fetchDeckData (quiet net) w).2 in
  ∃ mid,
    dom once = replay (loading_writes ++ mid ++ restoring_writes) (dom w) ∧
    dom (fetchDeckData (quiet net) once).2 =
      replay (loading_writes ++ mid ++ restoring_writes) (dom once) ∧
    ((∃ data n b, mid = render_events data n b) ∨
     (∃ e text,
        mid = [EvFetch get_request;
               EvConsoleError [VString "Error fetching deck data:"; e]] ++
              error_writes "remaining-cards" "shuffle-status" "error-message" text) ∨
     (∃ e,
        mid = [EvFetch get_request;
               EvConsoleError [VString "Error fetching deck data:"; e]])).
Proof.
  intros Hres. cbv zeta.
  pose proof (fetchDeckData_keeps_handles (quiet net) w Hres) as Hres'.
  destruct (fetchDeckData_tracked net w) as (evs & Htr & Hdom).
  destruct (fetchDeckData_tracked net (fetchDeckData (quiet net) w).2)
    as (evs' & Htr' & Hdom').
  set (once := (fetchDeckData (quiet net) w).2) in *.
  destruct (fetchDeckData_cases (quiet net) w Hres)
    as [(resp & data & n & b & Hnet & Hok & Hbody & Hrem & Hshuf & Hrun)
       |[(e & w1 & text & Htry & Htext & Hrun)
        |(e & w1 & message & t & Htry & Herr & Hstr & Hobj & Hhas & Hget & Hto & Hrun)]].
  - exists (render_events data n b).
    rewrite (fetchDeckData_rendered (quiet net) once resp data n b) in Htr' by done.
    subst once. rewrite Hrun in Htr. simpl in Htr, Htr'.
    apply app_inv_head in Htr. apply app_inv_head in Htr'. subst evs evs'.
    split; [exact Hdom|]. split; [exact Hdom'|]. eauto 10.
  - eexists ([_; _] ++ error_writes _ _ _ text).
    pose proof (try_block_completion (quiet net) "remaining-cards" "shuffle-status"
                  (enter_loading once) (enter_loading w)) as Hsame.
    rewrite Htry in Hsame. simpl in Hsame.
    destruct (try_block (quiet net) "remaining-cards" "shuffle-status" (enter_loading once))
      as [c w1'] eqn:Htry'. simpl in Hsame. subst c.
    rewrite (failed_trace (quiet net) once e w1' text Hres' Htry' Htext) in Htr'.
    subst once. rewrite Hrun in Htr. simpl in Htr, Htr'.
    apply app_inv_head in Htr. apply app_inv_head in Htr'. subst evs evs'.
    split; [exact Hdom|]. split; [exact Hdom'|]. eauto 10.
  - eexists [_; _].
    pose proof (try_block_completion (quiet net) "remaining-cards" "shuffle-status"
                  (enter_loading once) (enter_loading w)) as Hsame.
    rewrite Htry in Hsame. simpl in Hsame.
    destruct (try_block (quiet net) "remaining-cards" "shuffle-status" (enter_loading once))
      as [c w1'] eqn:Htry'. simpl in Hsame. subst c.
    rewrite (unshown_trace (quiet net) once e w1' message t) in Htr' by done.
    subst once. rewrite Hrun in Htr. simpl in Htr, Htr'.
    apply app_inv_head in Htr. apply app_inv_head in Htr'. subst evs evs'.
    split; [exact Hdom|]. split; [exact Hdom'|]. eauto 10.
Qed.

Lemma filter_twice (token : string) (l : list string) :
  filter (λ t, t ≠ token) (filter (λ t, t ≠ token) l) = filter (λ t, t ≠ token) l.
Proof. by apply list_filter_filter_l. Qed.

(** Is [id] one of the five, and which. *)
Ltac which_element id :=
  destruct (decide (id = "deck-card")) as [->|?];
  [|destruct (decide (id = "refresh-btn")) as [->|?];
    [|destruct (decide (id = "error-message")) as [->|?];
      [|destruct (decide (id = "remaining-cards")) as [->|?];
        [|destruct (decide (id = "shuffle-status")) as [->|?]]]]].

(** X14: with the same answer from the network and nothing else running,
    invoking the function a second time changes nothing on the page: a
    refresh is idempotent, whether it renders or fails. *)
Theorem fetchDeckData_idempotent net w :
  let once := (fetchDeckData (quiet net) w).2 in
  dom (fetchDeckData (quiet net) once).2 = dom once.
Proof.
  simpl. destruct (decide (handles_resolve (dom w))) as [Hres|Hmissing].
  - destruct (quiet_rerun net w Hres) as (mid & Honce & -> & Hmid).
    rewrite Honce. apply map_eq. intros id.
    destruct Hmid as [(data & n & b & ->)|[(e & text & ->)|(e & ->)]];
      unfold replay, loading_writes, render_events, error_writes, restoring_writes;
      cbn [foldl replay_event app]; which_element id; page_lookup; try done;
      destruct (dom w !! _) as [el|]; simpl; try done;
      unfold apply_write; simpl; rewrite ?filter_after_add, ?filter_twice; done.
  - assert (dom (fetchDeckData (quiet net) w).2 = dom w) as Hsame.
    { by rewrite (fetchDeckData_unresolved _ w Hmissing). }
    rewrite fetchDeckData_unresolved; [done|]. by rewrite Hsame.
Qed.
